(** * sing: the buffer-passing copy engine (common/bufio/copy.go) and the
    Shadowsocks 2022 server (protocol/shadowsocks/shadowaead_2022).

    A shallow embedding of the two Go sources and the properties their
    specification states about them.

    Conventions.
    - A Go [uint64] is a [Z] in [0, 2^64), an [int64] a [Z] in
      [-2^63, 2^63); wrap-around is written out with [uint64] and [int64].
    - A byte slice is a [list byte]; [buf.Buffer]'s readable window is the
      list of its bytes, reading consumes a prefix.
    - Pointer receivers are threaded explicitly: a function that mutates
      [*Service] returns the new [Service].
    - A Go run-time panic (nil dereference, failed [common.Must]) is the
      outcome [Panic]; it is distinct from a returned error. *)

From Stdlib Require Import ZArith Lia List Bool String.
From Stdlib.Strings Require Import Byte.
From stdpp Require Import base numbers option list gmap.

Local Open Scope Z_scope.

(** ** Machine integers *)

Definition uint64 (x : Z) : Z := x mod 2 ^ 64.
Definition int64 (x : Z) : Z := (x + 2 ^ 63) mod 2 ^ 64 - 2 ^ 63.
Definition MaxUint64 : Z := 2 ^ 64 - 1.

(** [float64(x)] for an integer [x]: IEEE-754 binary64, round to nearest,
    ties to even.  Every image of an integer is itself an integer, so the
    float is represented by its exact value.  Below 2^53 the conversion is
    exact; above, [a] keeps its 53 leading bits. *)
Definition float64 (x : Z) : Z :=
  let a := Z.abs x in
  if a <? 2 ^ 53 then x
  else
    let e := Z.log2 a - 52 in
    let q := a / 2 ^ e in
    let r := a mod 2 ^ e in
    let half := 2 ^ (e - 1) in
    let q' :=
      if r <? half then q
      else if half <? r then q + 1
      else if Z.even q then q else q + 1 in
    Z.sgn x * (q' * 2 ^ e).

(** [math.Abs] on such a float. *)
Definition math_Abs (f : Z) : Z := Z.abs f.

(** ** Bytes and [encoding/binary] (big endian) *)

Abbreviation bytes := (list byte).

#[global] Instance byte_eq_dec : EqDecision byte := Byte.byte_eq_dec.

Definition byte_to_Z (b : byte) : Z := Z.of_N (Byte.to_N b).

Definition byte_of_Z (x : Z) : byte :=
  match Byte.of_N (Z.to_N (x mod 256)) with
  | Some b => b
  | None => x00
  end.

Definition be_uint (bs : bytes) : Z :=
  fold_left (fun acc b => acc * 256 + byte_to_Z b) bs 0.

Fixpoint put_uint (n : nat) (x : Z) : bytes :=
  match n with
  | O => []
  | S n' => put_uint n' (x / 256) ++ [byte_of_Z x]
  end.

(** Errors the two packages return.  [Cause e msg] is [E.Cause(e, msg)],
    [ErrNew msg] is [E.New(msg)]; [ErrCollab] stands for an error produced
    by a collaborator (address codec, endpoint). *)
Inductive error : Type :=
| EOF
| ErrUnexpectedEOF
| ErrBadKey
| ErrBadHeaderType
| ErrBadTimestamp
| ErrPacketIdNotUnique
| ErrOpenFailed
| ErrShortBuffer
| ErrNew (msg : string)
| ErrCollab (code : Z)
| Cause (e : error) (msg : string).

(** The outcome of a call: it returns, or the goroutine panics. *)
Inductive outcome (A : Type) : Type :=
| Done (a : A)
| Panic (msg : string).
Arguments Done {A} a.
Arguments Panic {A} msg.

(** [binary.Read(buffer, binary.BigEndian, &x)] for an [n]-byte unsigned
    [x]: [io.ReadFull] of [n] bytes, [EOF] on an empty window,
    [ErrUnexpectedEOF] on a short one. *)
Definition binary_Read (n : nat) (buffer : bytes) : error + (Z * bytes) :=
  match buffer with
  | [] => inl EOF
  | _ =>
    if (length buffer <? n)%nat then inl ErrUnexpectedEOF
    else inr (be_uint (take n buffer), drop n buffer)
  end.

(** [buffer.ReadByte()]. *)
Definition ReadByte (buffer : bytes) : error + (byte * bytes) :=
  match buffer with
  | [] => inl EOF
  | b :: rest => inr (b, rest)
  end.

(** Writing [new] over the front of [old], as an in-place cipher call does. *)
Definition inplace (new old : bytes) : bytes := new ++ drop (length new) old.

(** ** The replay window of a datagram session

    [golang.zx2c4.com/wireguard/replay.Filter], the sliding-window filter
    the session embeds ([serverUDPSession.filter]); it is an external
    dependency, modelled here as its algorithm: a ring of 128 blocks of
    64 bits, the highest counter seen in [last]. *)
Module Replay.

Definition blockBitLog : Z := 6.
Definition blockBits : Z := Z.shiftl 1 blockBitLog.
Definition ringBlocks : Z := Z.shiftl 1 7.
Definition windowSize : Z := (ringBlocks - 1) * blockBits.
Definition blockMask : Z := ringBlocks - 1.
Definition bitMask : Z := blockBits - 1.

Record Filter : Type := mkFilter { last : Z; ring : list Z }.

(** The zero value of [Filter]. *)
Definition zero : Filter := mkFilter 0 (replicate 128 0).

(** [for i := from; i <= from+n-1; i++ { ring[i&blockMask] = 0 }] *)
Fixpoint clear (ring : list Z) (from : Z) (n : nat) : list Z :=
  match n with
  | O => ring
  | S n' => clear (<[Z.to_nat (Z.land from blockMask) := 0]> ring) (from + 1) n'
  end.

Definition ValidateCounter (f : Filter) (counter limit : Z) : bool * Filter :=
  if limit <=? counter then (false, f)
  else
    let indexBlock := Z.shiftr counter blockBitLog in
    let moved :=
      if last f <? counter then
        let current := Z.shiftr (last f) blockBitLog in
        let diff := indexBlock - current in
        let diff := if ringBlocks <? diff then ringBlocks else diff in
        Some (mkFilter counter (clear (ring f) (current + 1) (Z.to_nat diff)))
      else if windowSize <? last f - counter then None
      else Some f in
    match moved with
    | None => (false, f)
    | Some f1 =>
      let indexBlock := Z.to_nat (Z.land indexBlock blockMask) in
      let indexBit := Z.land counter bitMask in
      let old := ring f1 !!! indexBlock in
      let new := Z.lor old (Z.shiftl 1 indexBit) in
      (negb (old =? new), mkFilter (last f1) (<[indexBlock := new]> (ring f1)))
    end.

End Replay.

(** ** The Shadowsocks 2022 service (src/unnamed/part_000) *)
Module Shadowaead.

(** [cipher.AEAD] and [cipher.Block] values are a constructor applied to a
    key; the primitives themselves are collaborators. *)
Inductive AEADConstructor : Type :=
| newAESGCM
| newChacha20Poly1305
| newXChacha20Poly1305.

Inductive BlockConstructor : Type :=
| newAES.

Record AEAD : Type := mkAEAD { aead_new : AEADConstructor; aead_key : bytes }.
Record Block : Type := mkBlock { block_new : BlockConstructor; block_key : bytes }.

(** [aes.BlockSize] *)
Definition aes_BlockSize : nat := 16.

(** What the package consumes and the sources under study do not define:
    the package constants, the key-derivation function, the cipher
    primitives, the address codec, the stream cipher reader and the
    capacity of a stack buffer. *)
Class Collaborators : Type := {
  AddrPort : Type;
  KeySaltSize : nat;
  PacketNonceSize : nat;
  HeaderTypeClient : byte;
  HeaderTypeServer : byte;
  StackBufferSize : nat;
  Blake3DeriveKey : bytes -> bytes -> Z -> bytes;
  aead_NonceSize : AEAD -> nat;
  aead_Overhead : AEAD -> nat;
  aead_Open : AEAD -> bytes -> bytes -> option bytes;
  aead_Seal : AEAD -> bytes -> bytes -> bytes;
  block_Decrypt : Block -> bytes -> bytes;
  block_Encrypt : Block -> bytes -> bytes;
  ReadAddrPort : bytes -> error + (AddrPort * bytes);
  WriteAddrPort : AddrPort -> error + bytes;
  (* shadowaead.NewReader(conn, aead, max): the plaintext the stream
     yields, and the error its reads end with *)
  shadowaead_NewReader : AEAD -> bytes -> bytes * error
}.

Section Model.
Context `{Collaborators}.

(** [AEAD.Open(dst, nonce, ciphertext, nil)]: panics on a nonce of the wrong
    length, [None] is the authentication failure. *)
Definition Open (c : AEAD) (nonce ciphertext : bytes) : outcome (option bytes) :=
  if (length nonce =? aead_NonceSize c)%nat then Done (aead_Open c nonce ciphertext)
  else Panic "incorrect nonce length".

(** [AEAD.Seal(dst, nonce, plaintext, nil)]: panics on a nonce of the wrong
    length. *)
Definition Seal (c : AEAD) (nonce plaintext : bytes) : outcome bytes :=
  if (length nonce =? aead_NonceSize c)%nat then Done (aead_Seal c nonce plaintext)
  else Panic "incorrect nonce length".

(** [io.ReadFull(r, buf)] with [len(buf) = n] on a byte source. *)
Definition io_ReadFull (n : nat) (r : bytes) : error + (bytes * bytes) :=
  if (n =? 0)%nat then inr ([], r)
  else match r with
       | [] => inl EOF
       | _ => if (length r <? n)%nat then inl ErrUnexpectedEOF
              else inr (take n r, drop n r)
       end.

(** The decrypting stream of a connection: the plaintext still to be read
    and the error that ends it. *)
Record Reader : Type := mkReader { plain : bytes; final : error }.

Definition reader_ReadFull (n : nat) (r : Reader) : error + (bytes * Reader) :=
  if (n <=? length (plain r))%nat
  then inr (take n (plain r), mkReader (drop n (plain r)) (final r))
  else inl (match plain r, final r with
            | _ :: _, EOF => ErrUnexpectedEOF
            | _, e => e
            end).

Record serverUDPSession : Type := mkSession {
  sessionId : Z;
  remoteSessionId : Z;
  remoteAddr : option AddrPort;   (* [None] is the zero netip.AddrPort *)
  packetId : Z;
  cipher : option AEAD;
  remoteCipher : option AEAD;
  filter : Replay.Filter
}.

Definition set_remoteSessionId (v : Z) (x : serverUDPSession) : serverUDPSession :=
  mkSession (sessionId x) v (remoteAddr x) (packetId x) (cipher x) (remoteCipher x) (filter x).
Definition set_remoteAddr (v : option AddrPort) (x : serverUDPSession) : serverUDPSession :=
  mkSession (sessionId x) (remoteSessionId x) v (packetId x) (cipher x) (remoteCipher x) (filter x).
Definition set_packetId (v : Z) (x : serverUDPSession) : serverUDPSession :=
  mkSession (sessionId x) (remoteSessionId x) (remoteAddr x) v (cipher x) (remoteCipher x) (filter x).
Definition set_remoteCipher (v : option AEAD) (x : serverUDPSession) : serverUDPSession :=
  mkSession (sessionId x) (remoteSessionId x) (remoteAddr x) (packetId x) (cipher x) v (filter x).
Definition set_filter (v : Replay.Filter) (x : serverUDPSession) : serverUDPSession :=
  mkSession (sessionId x) (remoteSessionId x) (remoteAddr x) (packetId x) (cipher x) (remoteCipher x) v.

(** What [udpNat.NewPacket] receives. *)
Record Delivery : Type := mkDelivery {
  d_session : Z;
  d_source : AddrPort;
  d_destination : AddrPort;
  d_payload : bytes
}.

(** [Service].  [secureRNG] is an endless byte source read at [rngPos];
    [replayFilter] the salts the stream filter holds; [sessions] the
    session table; [delivered] what was handed to [udpNat], latest
    first. *)
Record Service : Type := mkService {
  name : string;
  secureRNG : nat -> byte;
  rngPos : nat;
  keyLength : Z;
  constructor : option AEADConstructor;
  blockConstructor : option BlockConstructor;
  udpCipher : option AEAD;
  udpBlockCipher : option Block;
  psk : bytes;
  replayFilter : list bytes;
  udpTimeout : Z;
  sessions : gmap Z serverUDPSession;
  delivered : list Delivery
}.

Definition set_rngPos (v : nat) (s : Service) : Service :=
  mkService (name s) (secureRNG s) v (keyLength s) (constructor s) (blockConstructor s)
    (udpCipher s) (udpBlockCipher s) (psk s) (replayFilter s) (udpTimeout s) (sessions s)
    (delivered s).
Definition set_replayFilter (v : list bytes) (s : Service) : Service :=
  mkService (name s) (secureRNG s) (rngPos s) (keyLength s) (constructor s) (blockConstructor s)
    (udpCipher s) (udpBlockCipher s) (psk s) v (udpTimeout s) (sessions s) (delivered s).
Definition set_sessions (v : gmap Z serverUDPSession) (s : Service) : Service :=
  mkService (name s) (secureRNG s) (rngPos s) (keyLength s) (constructor s) (blockConstructor s)
    (udpCipher s) (udpBlockCipher s) (psk s) (replayFilter s) (udpTimeout s) v (delivered s).
Definition set_delivered (v : list Delivery) (s : Service) : Service :=
  mkService (name s) (secureRNG s) (rngPos s) (keyLength s) (constructor s) (blockConstructor s)
    (udpCipher s) (udpBlockCipher s) (psk s) (replayFilter s) (udpTimeout s) (sessions s) v.

(** Reading [n] bytes of [secureRNG]. *)
Definition rng_read (n : nat) (s : Service) : bytes * Service :=
  (map (secureRNG s) (seq (rngPos s) n), set_rngPos (rngPos s + n)%nat s).

(** [NewService], lines 45-78. *)
Definition NewService (method : string) (psk : bytes) (secureRNG : nat -> byte)
    (udpTimeout : Z) : option Service * option error :=
  let s := mkService method secureRNG 0%nat 0 None None None None psk [] udpTimeout ∅ [] in
  if negb (length psk =? KeySaltSize)%nat then (None, Some ErrBadKey)
  else
    let s :=
      if String.eqb method "2022-blake3-aes-128-gcm" then
        mkService method secureRNG 0%nat 16 (Some newAESGCM) (Some newAES)
          None (Some (mkBlock newAES psk)) psk [] udpTimeout ∅ []
      else if String.eqb method "2022-blake3-aes-256-gcm" then
        mkService method secureRNG 0%nat 32 (Some newAESGCM) (Some newAES)
          None (Some (mkBlock newAES psk)) psk [] udpTimeout ∅ []
      else if String.eqb method "2022-blake3-chacha20-poly1305" then
        mkService method secureRNG 0%nat 32 (Some newChacha20Poly1305) None
          (Some (mkAEAD newXChacha20Poly1305 psk)) None psk [] udpTimeout ∅ []
      else s in
    (Some s, None).

(** The timestamp test of the stream handshake, line 112:
    [math.Abs(float64(time.Now().Unix()-int64(epoch))) > 30]. *)
Definition badTimestampConn (now epoch : Z) : bool :=
  30 <? math_Abs (float64 (int64 (now - int64 epoch))).

(** The timestamp test of the datagram path, line 284:
    [math.Abs(float64(uint64(time.Now().Unix())-epoch)) > 30]. *)
Definition badTimestampPacket (now epoch : Z) : bool :=
  30 <? math_Abs (float64 (uint64 (uint64 now - epoch))).

(** What a handshake ends in: rejected with an error, or handed to
    [handler.NewConnection] with the destination read, the request salt and
    the decrypting reader. *)
Inductive ConnResult : Type :=
| Rejected (err : error)
| Accepted (destination : AddrPort) (requestSalt : bytes) (reader : Reader).

(** Modelled from the spec: [replay.Filter.Check] of common/replay, which is
    not among the sources: the salt must not have been seen before, and is
    recorded. *)
Definition replayFilter_Check (salt : bytes) (s : Service) : bool * Service :=
  if existsb (fun x => bool_decide (x = salt)) (replayFilter s) then (false, s)
  else (true, set_replayFilter (salt :: replayFilter s) s).

(** [Service.NewConnection], lines 80-142; [now] is [time.Now().Unix()],
    [conn] the bytes the connection yields. *)
Definition NewConnection (s : Service) (now : Z) (conn : bytes)
  : outcome (Service * ConnResult) :=
  match io_ReadFull KeySaltSize conn with
  | inl err => Done (s, Rejected (Cause err "read request salt"))
  | inr (requestSalt, conn) =>
    let '(unique, s) := replayFilter_Check requestSalt s in
    if negb unique then Done (s, Rejected (ErrNew "salt not unique"))
    else
      let requestKey := Blake3DeriveKey (psk s) requestSalt (keyLength s) in
      match constructor s with
      | None => Panic "nil constructor"
      | Some new =>
        let '(pt, fin) := shadowaead_NewReader (mkAEAD new requestKey) conn in
        let reader := mkReader pt fin in
        match reader_ReadFull 1 reader with
        | inl err => Done (s, Rejected (Cause err "read header"))
        | inr (headerType, reader) =>
          if negb (bool_decide (headerType = [HeaderTypeClient]))
          then Done (s, Rejected ErrBadHeaderType)
          else
            match reader_ReadFull 8 reader with
            | inl err => Done (s, Rejected (Cause err "read timestamp"))
            | inr (epoch, reader) =>
              if badTimestampConn now (be_uint epoch)
              then Done (s, Rejected ErrBadTimestamp)
              else
                match ReadAddrPort (plain reader) with
                | inl err => Done (s, Rejected (Cause err "read destination"))
                | inr (destination, rest) =>
                  let reader := mkReader rest (final reader) in
                  match reader_ReadFull 2 reader with
                  | inl err => Done (s, Rejected (Cause err "read padding length"))
                  | inr (paddingLen, reader) =>
                    let paddingLen := be_uint paddingLen in
                    if 0 <? paddingLen then
                      match reader_ReadFull (Z.to_nat paddingLen) reader with
                      | inl err => Done (s, Rejected (Cause err "discard padding"))
                      | inr (_, reader) => Done (s, Accepted destination requestSalt reader)
                      end
                    else Done (s, Accepted destination requestSalt reader)
                  end
                end
            end
        end
      end
  end.

(** [serverUDPSession.nextPacketId], lines 371-373:
    [atomic.AddUint64(&s.packetId, 1)] returns the new value. *)
Definition nextPacketId (x : serverUDPSession) : Z * serverUDPSession :=
  let new := uint64 (packetId x + 1) in
  (new, set_packetId new x).

(** [Service.newUDPSession], lines 375-386. *)
Definition newUDPSession (m : Service) : outcome (serverUDPSession * Service) :=
  let '(rnd, m) := rng_read 8 m in
  let session := mkSession (be_uint rnd) 0 None 0 None None Replay.zero in
  let session := set_packetId (uint64 (packetId session - 1)) session in
  match udpCipher m with
  | None =>
    let sessionIdBytes := put_uint 8 (sessionId session) in
    let key := Blake3DeriveKey (psk m) sessionIdBytes (keyLength m) in
    match constructor m with
    | None => Panic "nil constructor"
    | Some new =>
      Done (mkSession (sessionId session) (remoteSessionId session)
              (remoteAddr session) (packetId session) (Some (mkAEAD new key))
              (remoteCipher session) (filter session), m)
    end
  | Some _ => Done (session, m)
  end.

(** Modelled from the spec: [cache.LruCache.LoadOrStore] of common/cache,
    which is not among the sources: load the entry of the key, or create it
    with the constructor and store it.  (Eviction by idle time is not
    modelled.) *)
Definition LoadOrStore (s : Service) (key : Z)
  : outcome (serverUDPSession * bool * Service) :=
  match sessions s !! key with
  | Some session => Done (session, true, s)
  | None =>
    match newUDPSession s with
    | Panic msg => Panic msg
    | Done (session, s) =>
      Done (session, false, set_sessions (<[key := session]> (sessions s)) s)
    end
  end.

(** A session is held by pointer: what is written through the pointer is
    written to the entry of the table. *)
Definition store (key : Z) (session : serverUDPSession) (s : Service) : Service :=
  set_sessions (<[key := session]> (sessions s)) s.

(** The label [returnErr], lines 248-252. *)
Definition returnErr (s : Service) (loaded : bool) (sessionId : Z) (err : error)
  : Service * option error :=
  (if negb loaded then set_sessions (delete sessionId (sessions s)) s else s, Some err).

(** Lines 214-224 of [NewPacket]: the header becomes readable.  Returns the
    header block ([packetHeader], nil in the unified mode) and the
    buffer. *)
Definition openHeader (s : Service) (buffer : bytes)
  : outcome (error + (option bytes * bytes)) :=
  match udpCipher s with
  | Some c =>
    if (length buffer <? PacketNonceSize)%nat then Panic "slice bounds out of range"
    else
      match Open c (take PacketNonceSize buffer) (drop PacketNonceSize buffer) with
      | Panic msg => Panic msg
      | Done None => Done (inl (Cause ErrOpenFailed "decrypt packet header"))
      | Done (Some pt) => Done (inr (None, inplace pt (drop PacketNonceSize buffer)))
      end
  | None =>
    match udpBlockCipher s with
    | None => Panic "nil block cipher"
    | Some b =>
      if (length buffer <? aes_BlockSize)%nat then Panic "slice bounds out of range"
      else
        let buffer := inplace (block_Decrypt b (take aes_BlockSize buffer)) buffer in
        Done (inr (Some (take aes_BlockSize buffer), buffer))
    end
  end.

(** Lines 268-300 of [NewPacket]: header type, timestamp, padding and
    destination, read from the opened body. *)
Definition readRequest (now : Z) (buffer : bytes) : error + (AddrPort * bytes) :=
  match ReadByte buffer with
  | inl err => inl (Cause err "decrypt packet")
  | inr (headerType, buffer) =>
    if negb (Byte.eqb headerType HeaderTypeClient) then inl ErrBadHeaderType
    else
      match binary_Read 8 buffer with
      | inl err => inl err
      | inr (epoch, buffer) =>
        if badTimestampPacket now epoch then inl ErrBadTimestamp
        else
          match binary_Read 2 buffer with
          | inl err => inl (Cause err "read padding length")
          | inr (paddingLength, buffer) =>
            let buffer := drop (Z.to_nat paddingLength) buffer in
            ReadAddrPort buffer
          end
      end
  end.

(** The label [process], lines 254-300: the session as the packet leaves
    it, and the error or the destination and payload. *)
Definition process (session : serverUDPSession) (packetHeader : option bytes)
    (packetId now : Z) (buffer : bytes)
  : outcome (serverUDPSession * (error + (AddrPort * bytes))) :=
  let '(valid, f) := Replay.ValidateCounter (filter session) packetId MaxUint64 in
  let session := set_filter f session in
  if negb valid then Done (session, inl ErrPacketIdNotUnique)
  else
    match packetHeader with
    | Some packetHeader =>
      match remoteCipher session with
      | None => Panic "nil remoteCipher"
      | Some c =>
        match Open c (drop 4 (take 16 packetHeader)) buffer with
        | Panic msg => Panic msg
        | Done None => Done (session, inl (Cause ErrOpenFailed "decrypt packet"))
        | Done (Some pt) => Done (session, readRequest now (inplace pt buffer))
        end
      end
    | None => Done (session, readRequest now buffer)
    end.

(** [Service.NewPacket], lines 213-307; [source] is [metadata.Source]. *)
Definition NewPacket (s : Service) (now : Z) (source : AddrPort) (buffer : bytes)
  : outcome (Service * option error) :=
  match openHeader s buffer with
  | Panic msg => Panic msg
  | Done (inl err) => Done (s, Some err)
  | Done (inr (packetHeader, buffer)) =>
    match binary_Read 8 buffer with
    | inl err => Done (s, Some err)
    | inr (sessionId, buffer) =>
      match binary_Read 8 buffer with
      | inl err => Done (s, Some err)
      | inr (packetId, buffer) =>
        match LoadOrStore s sessionId with
        | Panic msg => Panic msg
        | Done (session, loaded, s) =>
          let created : outcome serverUDPSession :=
            if negb loaded then
              let session := set_remoteSessionId sessionId session in
              match packetHeader with
              | Some packetHeader =>
                let key := Blake3DeriveKey (psk s) (take 8 packetHeader) (keyLength s) in
                match constructor s with
                | None => Panic "nil constructor"
                | Some new => Done (set_remoteCipher (Some (mkAEAD new key)) session)
                end
              | None => Done session
              end
            else Done session in
          match created with
          | Panic msg => Panic msg
          | Done session =>
            let session := set_remoteAddr (Some source) session in
            match process session packetHeader packetId now buffer with
            | Panic msg => Panic msg
            | Done (session, inl err) =>
              Done (returnErr (store sessionId session s) loaded sessionId err)
            | Done (session, inr (destination, buffer)) =>
              let s := store sessionId session s in
              Done (set_delivered
                      (mkDelivery sessionId source destination buffer :: delivered s) s,
                    None)
            end
          end
        end
      end
    end
  end.

(** Modelled from the spec: [buf.Buffer.Write] of common/buf, which is not
    among the sources: a write that does not fit the buffer is rejected. *)
Definition Buffer_Write (header data : bytes) : error + bytes :=
  if (length header + length data <=? StackBufferSize)%nat then inr (header ++ data)
  else inl ErrShortBuffer.

(** [serverPacketWriter.WritePacket], lines 316-359, on the session the
    writer holds: the session and service after the call, and the error or
    the packet handed to [PacketConn.WritePacket]. *)
Definition WritePacket (w : Service) (session : serverUDPSession) (now : Z)
    (buffer : bytes) (destination : AddrPort)
  : outcome (Service * serverUDPSession * (error + bytes)) :=
  let '(header, w, dataIndex) :=
    match udpCipher w with
    | Some _ =>
      let '(nonce, w) := rng_read PacketNonceSize w in
      (nonce, w, length buffer)
    | None => ([], w, aes_BlockSize)
    end in
  let '(id, session) := nextPacketId session in
  let header :=
    header ++ put_uint 8 (sessionId session) ++ put_uint 8 id ++ [HeaderTypeServer]
      ++ put_uint 8 (uint64 now) ++ put_uint 8 (remoteSessionId session)
      ++ put_uint 2 0 in
  match WriteAddrPort destination with
  | inl err => Done (w, session, inl err)
  | inr addr =>
    let header := header ++ addr in
    match Buffer_Write header buffer with
    | inl err => Done (w, session, inl err)
    | inr header =>
      match udpCipher w with
      | Some c =>
        match Seal c (take dataIndex header) (drop dataIndex header) with
        | Panic msg => Panic msg
        | Done sealed => Done (w, session, inr (take dataIndex header ++ sealed))
        end
      | None =>
        let packetHeader := take aes_BlockSize header in
        match cipher session with
        | None => Panic "nil cipher"
        | Some c =>
          match Seal c (drop 4 (take 16 packetHeader)) (drop dataIndex header) with
          | Panic msg => Panic msg
          | Done sealed =>
            match udpBlockCipher w with
            | None => Panic "nil block cipher"
            | Some b =>
              Done (w, session,
                    inr (inplace (block_Encrypt b packetHeader)
                           (take dataIndex header ++ sealed)))
            end
          end
        end
      end
    end
  end.

End Model.
End Shadowaead.

(** ** The copy engine (src/common/bufio/copy.go) *)
Module Bufio.

(** [buf.Buffer] as the engine sees it: the capacity of the backing array,
    the offset of the window in it and the bytes of the window. *)
Record Buffer : Type := mkBuffer { capacity : Z; start : Z; data : bytes }.

Definition Len (b : Buffer) : Z := Z.of_nat (length (data b)).

(** The window a read leaves in the buffer it was given: its offset and
    its bytes. *)
Definition Window : Type := Z * bytes.

(** The Go dynamic types [needReadFromWrapper] tells apart. *)
Inductive GoType : Type :=
| TCPConn
| UnixConn
| OSFile
| OtherType.

(** The interface types of the package; their values here are non-nil, a
    possibly nil argument is an [option]. [World] is the state of
    everything behind the endpoints. *)
Class Interfaces : Type := {
  World : Type;
  io_Reader : Type;
  io_Writer : Type;
  ExtendedReader : Type;
  ExtendedWriter : Type;
  ThreadSafeReader : Type;
  PacketReader : Type;
  PacketWriter : Type;
  ThreadSafePacketReader : Type;
  Socksaddr : Type
}.

(** A value of Go's [any], as the helpers of package N receive it. *)
Inductive any `{Interfaces} : Type :=
| nil
| ext_reader (r : ExtendedReader)
| ext_writer (w : ExtendedWriter)
| pkt_reader (r : PacketReader)
| pkt_writer (w : PacketWriter).

(** What [ReaderFrom.ReadFrom] is given: the source itself, or the source
    inside [readOnlyReader] (lines 18-24). *)
Inductive ReadFromSource `{Interfaces} : Type :=
| direct (src : io_Reader)
| readOnlyReader (src : io_Reader).

(** The endpoints' methods and the helpers of packages N, buf and common
    that the sources under study call and do not define. *)
Class Network `{Interfaces} : Type := {
  BufferSize : Z;
  UDPBufferSize : Z;
  (* cap(buf.NewSize(size).Slice()), also for buf.StackNewSize *)
  Slice_cap : Z -> Z;
  UnwrapReader : io_Reader -> io_Reader;
  UnwrapWriter : io_Writer -> io_Writer;
  dynType_Reader : io_Reader -> GoType;
  dynType_Writer : io_Writer -> GoType;
  is_WriterTo : io_Reader -> bool;
  WriteTo : io_Reader -> io_Writer -> World -> World * (Z * option error);
  is_ReaderFrom : io_Writer -> bool;
  ReadFrom : io_Writer -> ReadFromSource -> World -> World * (Z * option error);
  NewExtendedReader : io_Reader -> ExtendedReader;
  NewExtendedWriter : io_Writer -> ExtendedWriter;
  Cast_ThreadSafeReader : ExtendedReader -> option ThreadSafeReader;
  Cast_ThreadSafePacketReader : PacketReader -> option ThreadSafePacketReader;
  CalculateFrontHeadroom : any -> Z;
  CalculateRearHeadroom : any -> Z;
  CalculateMTU : any -> any -> Z;
  IsUnsafeWriter : any -> bool;
  HandshakeFailure : any -> error -> error;
  ReadBuffer : ExtendedReader -> Buffer -> World -> World * (error + Window);
  WriteBuffer : ExtendedWriter -> Buffer -> World -> World * option error;
  ReadBufferThreadSafe : ThreadSafeReader -> World -> World * (error + Buffer);
  ReadPacket : PacketReader -> Buffer -> World -> World * (error + (Window * Socksaddr));
  WritePacket : PacketWriter -> Buffer -> Socksaddr -> World -> World * option error;
  ReadPacketThreadSafe :
    ThreadSafePacketReader -> World -> World * (error + (Buffer * Socksaddr))
}.

(** How a call ends: it returns [n] and [err], it panics, or it is still
    looping when the fuel of the model is spent. *)
Inductive Stop : Type :=
| Returned (n : Z) (err : option error)
| Panicked (msg : string)
| OutOfFuel.

(** A run of a copy: the world it leaves and how it ended.  [r_handed] is
    a ghost: the buffers the engine passed to the sink's write method, in
    order, a refused one included. *)
Record CopyResult `{Interfaces} (Item : Type) : Type := mkResult {
  r_world : World;
  r_handed : list Item;
  r_stop : Stop
}.
Arguments mkResult {_ Item} _ _ _.
Arguments r_world {_ Item} _.
Arguments r_handed {_ Item} _.
Arguments r_stop {_ Item} _.

Section Engine.
Context `{Network}.

(** [buf.NewSize(size)] and [buf.StackNewSize(size)]. *)
Definition NewSize (size : Z) : Buffer := mkBuffer (Slice_cap size) 0 [].

(** [buf.With(readBufferRaw[:cap(readBufferRaw)-rearHeadroom])] for
    [readBufferRaw := buffer.Slice()]: the slice expression panics unless
    0 <= cap-rearHeadroom <= cap. *)
Definition With_front (buffer : Buffer) (rearHeadroom : Z) : outcome Buffer :=
  let high := capacity buffer - rearHeadroom in
  if (high <? 0) || (capacity buffer <? high) then Panic "slice bounds out of range"
  else Done (mkBuffer high 0 (replicate (Z.to_nat high) x00)).

(** [readBuffer.Resize(frontHeadroom, 0)]: an empty window at the offset. *)
Definition Resize_empty (frontHeadroom : Z) (readBuffer : Buffer) : Buffer :=
  mkBuffer (capacity readBuffer) frontHeadroom [].

(** The buffer a read was given, with the window the read left. *)
Definition filled (readBuffer : Buffer) (window : Window) : Buffer :=
  mkBuffer (capacity readBuffer) window.1 window.2.

(** [buffer.Resize(readBuffer.Start(), dataLen)] with
    [dataLen = readBuffer.Len()]: the two buffers share the backing array,
    so the window of [buffer] now shows what the source wrote. *)
Definition Resize_onto (readBuffer buffer : Buffer) : Buffer :=
  mkBuffer (capacity buffer) (start readBuffer) (data readBuffer).

(** [needReadFromWrapper], lines 26-37. *)
Definition needReadFromWrapper (dst : io_Writer) (src : io_Reader) : bool :=
  match dynType_Writer dst with
  | TCPConn =>
    match dynType_Reader src with
    | TCPConn | UnixConn | OSFile => false
    | OtherType => true
    end
  | _ => false
  end.

(** The loop of [CopyExtendedBuffer], lines 91-108. *)
Fixpoint CopyExtendedBuffer_loop (fuel : nat) (dst : ExtendedWriter) (src : ExtendedReader)
    (buffer readBuffer : Buffer) (frontHeadroom : Z) (notFirstTime : bool) (n : Z)
    (handed : list Buffer) (w : World) : CopyResult Buffer :=
  match fuel with
  | O => mkResult w handed OutOfFuel
  | S fuel =>
    let readBuffer := Resize_empty frontHeadroom readBuffer in
    match ReadBuffer src readBuffer w with
    | (w, inl err) =>
      let err := if negb notFirstTime then HandshakeFailure (ext_writer dst) err else err in
      mkResult w handed (Returned n (Some err))
    | (w, inr window) =>
      let readBuffer := filled readBuffer window in
      let dataLen := Len readBuffer in
      let buffer := Resize_onto readBuffer buffer in
      match WriteBuffer dst buffer w with
      | (w, Some err) => mkResult w (handed ++ [buffer]) (Returned n (Some err))
      | (w, None) =>
        CopyExtendedBuffer_loop fuel dst src buffer readBuffer frontHeadroom true
          (int64 (n + int64 dataLen)) (handed ++ [buffer]) w
      end
    end
  end.

(** [CopyExtendedBuffer], lines 83-109. *)
Definition CopyExtendedBuffer (fuel : nat) (dst : ExtendedWriter) (src : ExtendedReader)
    (buffer : Buffer) (w : World) : CopyResult Buffer :=
  let frontHeadroom := CalculateFrontHeadroom (ext_writer dst) in
  let rearHeadroom := CalculateRearHeadroom (ext_writer dst) in
  match With_front buffer rearHeadroom with
  | Panic msg => mkResult w [] (Panicked msg)
  | Done readBuffer =>
    CopyExtendedBuffer_loop fuel dst src buffer readBuffer frontHeadroom false 0 [] w
  end.

(** The loop of [CopyExtendedWithSrcBuffer], lines 113-130. *)
Fixpoint CopyExtendedWithSrcBuffer_loop (fuel : nat) (dst : ExtendedWriter)
    (src : ThreadSafeReader) (notFirstTime : bool) (n : Z) (handed : list Buffer)
    (w : World) : CopyResult Buffer :=
  match fuel with
  | O => mkResult w handed OutOfFuel
  | S fuel =>
    match ReadBufferThreadSafe src w with
    | (w, inl err) =>
      let err := if negb notFirstTime then HandshakeFailure (ext_writer dst) err else err in
      mkResult w handed (Returned n (Some err))
    | (w, inr buffer) =>
      let dataLen := Len buffer in
      match WriteBuffer dst buffer w with
      | (w, Some err) => mkResult w (handed ++ [buffer]) (Returned n (Some err))
      | (w, None) =>
        CopyExtendedWithSrcBuffer_loop fuel dst src true (int64 (n + int64 dataLen))
          (handed ++ [buffer]) w
      end
    end
  end.

(** [CopyExtendedWithSrcBuffer], lines 111-131. *)
Definition CopyExtendedWithSrcBuffer (fuel : nat) (dst : ExtendedWriter)
    (src : ThreadSafeReader) (w : World) : CopyResult Buffer :=
  CopyExtendedWithSrcBuffer_loop fuel dst src false 0 [] w.

(** The loop of [CopyExtendedWithPool], lines 143-165. *)
Fixpoint CopyExtendedWithPool_loop (fuel : nat) (dst : ExtendedWriter) (src : ExtendedReader)
    (frontHeadroom rearHeadroom bufferSize : Z) (notFirstTime : bool) (n : Z)
    (handed : list Buffer) (w : World) : CopyResult Buffer :=
  match fuel with
  | O => mkResult w handed OutOfFuel
  | S fuel =>
    let buffer := NewSize bufferSize in
    match With_front buffer rearHeadroom with
    | Panic msg => mkResult w handed (Panicked msg)
    | Done readBuffer =>
      let readBuffer := Resize_empty frontHeadroom readBuffer in
      match ReadBuffer src readBuffer w with
      | (w, inl err) =>
        let err := if negb notFirstTime then HandshakeFailure (ext_writer dst) err else err in
        mkResult w handed (Returned n (Some err))
      | (w, inr window) =>
        let readBuffer := filled readBuffer window in
        let dataLen := Len readBuffer in
        let buffer := Resize_onto readBuffer buffer in
        match WriteBuffer dst buffer w with
        | (w, Some err) => mkResult w (handed ++ [buffer]) (Returned n (Some err))
        | (w, None) =>
          CopyExtendedWithPool_loop fuel dst src frontHeadroom rearHeadroom bufferSize true
            (int64 (n + int64 dataLen)) (handed ++ [buffer]) w
        end
      end
    end
  end.

(** [CopyExtendedWithPool], lines 133-166. *)
Definition CopyExtendedWithPool (fuel : nat) (dst : ExtendedWriter) (src : ExtendedReader)
    (w : World) : CopyResult Buffer :=
  let frontHeadroom := CalculateFrontHeadroom (ext_writer dst) in
  let rearHeadroom := CalculateRearHeadroom (ext_writer dst) in
  let bufferSize := CalculateMTU (ext_reader src) (ext_writer dst) in
  let bufferSize :=
    if 0 <? bufferSize then int64 (bufferSize + int64 (frontHeadroom + rearHeadroom))
    else BufferSize in
  CopyExtendedWithPool_loop fuel dst src frontHeadroom rearHeadroom bufferSize false 0 [] w.

(** [CopyExtended], lines 59-81. *)
Definition CopyExtended (fuel : nat) (dst : ExtendedWriter) (src : ExtendedReader)
    (w : World) : CopyResult Buffer :=
  let srcUnsafe := Cast_ThreadSafeReader src in
  let headroom :=
    int64 (CalculateFrontHeadroom (ext_writer dst) + CalculateRearHeadroom (ext_writer dst)) in
  let rest :=
    if IsUnsafeWriter (ext_writer dst) then CopyExtendedWithPool fuel dst src w
    else
      let bufferSize := CalculateMTU (ext_reader src) (ext_writer dst) in
      let bufferSize :=
        if 0 <? bufferSize then int64 (bufferSize + headroom) else BufferSize in
      let buffer := NewSize bufferSize in
      CopyExtendedBuffer fuel dst src buffer w in
  match srcUnsafe with
  | Some unsafeSrc =>
    if headroom =? 0 then CopyExtendedWithSrcBuffer fuel dst unsafeSrc w else rest
  | None => rest
  end.

(** [Copy], lines 39-57. *)
Definition Copy (fuel : nat) (dst : option io_Writer) (src : option io_Reader) (w : World)
  : CopyResult Buffer :=
  match src, dst with
  | None, _ => mkResult w [] (Returned 0 (Some (ErrNew "nil reader")))
  | Some _, None => mkResult w [] (Returned 0 (Some (ErrNew "nil writer")))
  | Some src, Some dst =>
    let src := UnwrapReader src in
    let dst := UnwrapWriter dst in
    if is_WriterTo src then
      let '(w, (n, err)) := WriteTo src dst w in
      mkResult w [] (Returned n err)
    else if is_ReaderFrom dst then
      let src := if needReadFromWrapper dst src then readOnlyReader src else direct src in
      let '(w, (n, err)) := ReadFrom dst src w in
      mkResult w [] (Returned n err)
    else CopyExtended fuel (NewExtendedWriter dst) (NewExtendedReader src) w
  end.

(** A possibly nil packet endpoint as an [any]. *)
Definition any_PacketWriter (dst : option PacketWriter) : any :=
  match dst with Some d => pkt_writer d | None => nil end.
Definition any_PacketReader (src : option PacketReader) : any :=
  match src with Some r => pkt_reader r | None => nil end.

(** A method call through a possibly nil interface value. *)
Definition call_ReadPacket (src : option PacketReader) (buffer : Buffer) (w : World)
  : outcome (World * (error + (Window * Socksaddr))) :=
  match src with
  | Some r => Done (ReadPacket r buffer w)
  | None => Panic "nil pointer dereference"
  end.

Definition call_WritePacket (dst : option PacketWriter) (buffer : Buffer)
    (destination : Socksaddr) (w : World) : outcome (World * option error) :=
  match dst with
  | Some d => Done (WritePacket d buffer destination w)
  | None => Panic "nil pointer dereference"
  end.

(** The loop of [CopyPacketWithSrcBuffer], lines 244-260. *)
Fixpoint CopyPacketWithSrcBuffer_loop (fuel : nat) (dst : option PacketWriter)
    (src : ThreadSafePacketReader) (notFirstTime : bool) (n : Z)
    (handed : list (Buffer * Socksaddr)) (w : World) : CopyResult (Buffer * Socksaddr) :=
  match fuel with
  | O => mkResult w handed OutOfFuel
  | S fuel =>
    match ReadPacketThreadSafe src w with
    | (w, inl err) =>
      let err := if negb notFirstTime then HandshakeFailure (any_PacketWriter dst) err
                 else err in
      mkResult w handed (Returned n (Some err))
    | (w, inr (buffer, destination)) =>
      let dataLen := Len buffer in
      match call_WritePacket dst buffer destination w with
      | Panic msg => mkResult w handed (Panicked msg)
      | Done (w, Some err) =>
        mkResult w (handed ++ [(buffer, destination)]) (Returned n (Some err))
      | Done (w, None) =>
        CopyPacketWithSrcBuffer_loop fuel dst src true (int64 (n + int64 dataLen))
          (handed ++ [(buffer, destination)]) w
      end
    end
  end.

(** [CopyPacketWithSrcBuffer], lines 240-261. *)
Definition CopyPacketWithSrcBuffer (fuel : nat) (dst : option PacketWriter)
    (src : ThreadSafePacketReader) (w : World) : CopyResult (Buffer * Socksaddr) :=
  CopyPacketWithSrcBuffer_loop fuel dst src false 0 [] w.

(** The loop of [CopyPacketWithPool], lines 274-296. *)
Fixpoint CopyPacketWithPool_loop (fuel : nat) (dst : option PacketWriter)
    (src : option PacketReader) (frontHeadroom rearHeadroom bufferSize : Z)
    (notFirstTime : bool) (n : Z) (handed : list (Buffer * Socksaddr)) (w : World)
  : CopyResult (Buffer * Socksaddr) :=
  match fuel with
  | O => mkResult w handed OutOfFuel
  | S fuel =>
    let buffer := NewSize bufferSize in
    match With_front buffer rearHeadroom with
    | Panic msg => mkResult w handed (Panicked msg)
    | Done readBuffer =>
      let readBuffer := Resize_empty frontHeadroom readBuffer in
      match call_ReadPacket src readBuffer w with
      | Panic msg => mkResult w handed (Panicked msg)
      | Done (w, inl err) =>
        let err := if negb notFirstTime then HandshakeFailure (any_PacketWriter dst) err
                   else err in
        mkResult w handed (Returned n (Some err))
      | Done (w, inr (window, destination)) =>
        let readBuffer := filled readBuffer window in
        let dataLen := Len readBuffer in
        let buffer := Resize_onto readBuffer buffer in
        match call_WritePacket dst buffer destination w with
        | Panic msg => mkResult w handed (Panicked msg)
        | Done (w, Some err) =>
          mkResult w (handed ++ [(buffer, destination)]) (Returned n (Some err))
        | Done (w, None) =>
          CopyPacketWithPool_loop fuel dst src frontHeadroom rearHeadroom bufferSize true
            (int64 (n + int64 dataLen)) (handed ++ [(buffer, destination)]) w
        end
      end
    end
  end.

(** [CopyPacketWithPool], lines 263-297. *)
Definition CopyPacketWithPool (fuel : nat) (dst : option PacketWriter)
    (src : option PacketReader) (w : World) : CopyResult (Buffer * Socksaddr) :=
  let frontHeadroom := CalculateFrontHeadroom (any_PacketWriter dst) in
  let rearHeadroom := CalculateRearHeadroom (any_PacketWriter dst) in
  let bufferSize := CalculateMTU (any_PacketReader src) (any_PacketWriter dst) in
  let bufferSize :=
    if 0 <? bufferSize then int64 (bufferSize + int64 (frontHeadroom + rearHeadroom))
    else UDPBufferSize in
  CopyPacketWithPool_loop fuel dst src frontHeadroom rearHeadroom bufferSize false 0 [] w.

(** The loop of [CopyPacket], lines 220-237. *)
Fixpoint CopyPacket_loop (fuel : nat) (dst : option PacketWriter) (src : option PacketReader)
    (buffer readBuffer : Buffer) (frontHeadroom : Z) (notFirstTime : bool) (n : Z)
    (handed : list (Buffer * Socksaddr)) (w : World) : CopyResult (Buffer * Socksaddr) :=
  match fuel with
  | O => mkResult w handed OutOfFuel
  | S fuel =>
    let readBuffer := Resize_empty frontHeadroom readBuffer in
    match call_ReadPacket src readBuffer w with
    | Panic msg => mkResult w handed (Panicked msg)
    | Done (w, inl err) =>
      let err := if negb notFirstTime then HandshakeFailure (any_PacketWriter dst) err
                 else err in
      mkResult w handed (Returned n (Some err))
    | Done (w, inr (window, destination)) =>
      let readBuffer := filled readBuffer window in
      let dataLen := Len readBuffer in
      let buffer := Resize_onto readBuffer buffer in
      match call_WritePacket dst buffer destination w with
      | Panic msg => mkResult w handed (Panicked msg)
      | Done (w, Some err) =>
        mkResult w (handed ++ [(buffer, destination)]) (Returned n (Some err))
      | Done (w, None) =>
        CopyPacket_loop fuel dst src buffer readBuffer frontHeadroom true
          (int64 (n + int64 dataLen)) (handed ++ [(buffer, destination)]) w
      end
    end
  end.

(** [CopyPacket], lines 191-238.  [common.Cast] of a nil interface value
    fails. *)
Definition CopyPacket (fuel : nat) (dst : option PacketWriter) (src : option PacketReader)
    (w : World) : CopyResult (Buffer * Socksaddr) :=
  let srcUnsafe := match src with Some r => Cast_ThreadSafePacketReader r | None => None end in
  let frontHeadroom := CalculateFrontHeadroom (any_PacketWriter dst) in
  let rearHeadroom := CalculateRearHeadroom (any_PacketWriter dst) in
  let headroom := int64 (frontHeadroom + rearHeadroom) in
  let rest :=
    if IsUnsafeWriter (any_PacketWriter dst) then CopyPacketWithPool fuel dst src w
    else
      let bufferSize := CalculateMTU (any_PacketReader src) (any_PacketWriter dst) in
      let bufferSize :=
        if 0 <? bufferSize then int64 (bufferSize + headroom) else UDPBufferSize in
      let buffer := NewSize bufferSize in
      match With_front buffer rearHeadroom with
      | Panic msg => mkResult w [] (Panicked msg)
      | Done readBuffer =>
        CopyPacket_loop fuel dst src buffer readBuffer frontHeadroom false 0 [] w
      end in
  match srcUnsafe with
  | Some unsafeSrc =>
    if headroom =? 0 then CopyPacketWithSrcBuffer fuel dst unsafeSrc w else rest
  | None => rest
  end.

End Engine.
End Bufio.

(** * Properties *)

(** ** The replay window *)
Module ReplayFacts.
Import Replay.

Lemma shiftr_blockBitLog c : Z.shiftr c blockBitLog = c / 64.
Proof. unfold blockBitLog. rewrite Z.shiftr_div_pow2 by lia. reflexivity. Qed.

Lemma land_bitMask c : Z.land c bitMask = c mod 64.
Proof. change bitMask with (Z.ones 6). rewrite Z.land_ones by lia. reflexivity. Qed.

Lemma land_blockMask c : Z.land c blockMask = c mod 128.
Proof. change blockMask with (Z.ones 7). rewrite Z.land_ones by lia. reflexivity. Qed.

Lemma lor_bit_eqb old p :
  0 <= p -> (old =? Z.lor old (Z.shiftl 1 p)) = Z.testbit old p.
Proof.
  intros Hp. rewrite Z.shiftl_1_l.
  destruct (Z.testbit old p) eqn:Hb.
  - apply Z.eqb_eq. apply Z.bits_inj'. intros n Hn.
    rewrite Z.lor_spec, Z.pow2_bits_eqb by lia.
    destruct (Z.eqb_spec p n) as [->|]; [rewrite Hb|]; now rewrite ?orb_true_r, ?orb_false_r.
  - apply Z.eqb_neq. intros Heq.
    assert (Z.testbit (Z.lor old (2 ^ p)) p = true) as Ht.
    { rewrite Z.lor_spec, Z.pow2_bits_eqb, Z.eqb_refl by lia. apply orb_true_r. }
    rewrite <- Heq in Ht. congruence.
Qed.

Lemma testbit_lor_bit old p q :
  0 <= p -> Z.testbit (Z.lor old (Z.shiftl 1 p)) q = Z.testbit old q || (p =? q).
Proof.
  intros Hp. rewrite Z.shiftl_1_l, Z.lor_spec.
  destruct (Z.neg_nonneg_cases q) as [Hq|Hq].
  - rewrite !Z.testbit_neg_r by lia. destruct (Z.eqb_spec p q); [lia|reflexivity].
  - rewrite Z.pow2_bits_eqb by lia. reflexivity.
Qed.

Definition slot (c : Z) : nat := Z.to_nat ((c / 64) mod 128).

Definition bit_set (f : Filter) (c : Z) : bool :=
  Z.testbit (ring f !!! slot c) (c mod 64).

Lemma clear_length ring from n : length (clear ring from n) = length ring.
Proof.
  revert ring from. induction n as [|n IH]; intros ring from; simpl; [reflexivity|].
  rewrite IH. apply length_insert.
Qed.

Lemma clear_miss ring from n (i : nat) :
  (forall j, 0 <= j < Z.of_nat n -> (from + j) mod 128 <> Z.of_nat i) ->
  clear ring from n !!! i = ring !!! i.
Proof.
  revert ring from. induction n as [|n IH]; intros ring from Hmiss; simpl; [reflexivity|].
  rewrite IH.
  - rewrite land_blockMask. apply list_lookup_total_insert_ne.
    specialize (Hmiss 0). rewrite Z.add_0_r in Hmiss. 
    intros Heq. apply Hmiss; [lia|]. subst i.
    rewrite Z2Nat.id; [reflexivity|]. apply Z.mod_pos_bound. lia.
  - intros j Hj. replace (from + 1 + j) with (from + (j + 1)) by lia. apply Hmiss. lia.
Qed.

Lemma clear_cases ring from n (i : nat) :
  (i < length ring)%nat ->
  clear ring from n !!! i = 0 \/
  (clear ring from n !!! i = ring !!! i /\
   forall j, 0 <= j < Z.of_nat n -> (from + j) mod 128 <> Z.of_nat i).
Proof.
  revert ring from. induction n as [|n IH]; intros ring from Hlt; simpl.
  - right. split; [reflexivity|]. intros j Hj. lia.
  - destruct (IH (<[Z.to_nat (Z.land from blockMask) := 0]> ring) (from + 1)) as [H0|[Heq Hmiss]];
      [rewrite length_insert; exact Hlt|left; exact H0|].
    rewrite land_blockMask in *.
    destruct (decide (Z.to_nat (from mod 128) = i)) as [Hi|Hi].
    + left. rewrite Heq, Hi. apply list_lookup_total_insert_eq. exact Hlt.
    + right. split.
      * rewrite Heq. apply list_lookup_total_insert_ne. exact Hi.
      * intros j Hj. destruct (decide (j = 0)) as [->|Hj0].
        -- rewrite Z.add_0_r. intros Hc. apply Hi. rewrite Hc. apply Nat2Z.id.
        -- replace (from + j) with (from + 1 + (j - 1)) by lia. apply Hmiss. lia.
Qed.


(** [ValidateCounter] with the shifts and masks read as quotients and
    remainders. *)
Lemma ValidateCounter_unfold f c lim :
  ValidateCounter f c lim =
  if lim <=? c then (false, f)
  else if last f <? c then
    let d := c / 64 - last f / 64 in
    let ring1 := clear (ring f) (last f / 64 + 1) (Z.to_nat (if 128 <? d then 128 else d)) in
    let old := ring1 !!! slot c in
    (negb (Z.testbit old (c mod 64)),
     mkFilter c (<[slot c := Z.lor old (Z.shiftl 1 (c mod 64))]> ring1))
  else if 8128 <? last f - c then (false, f)
  else
    let old := ring f !!! slot c in
    (negb (Z.testbit old (c mod 64)),
     mkFilter (last f) (<[slot c := Z.lor old (Z.shiftl 1 (c mod 64))]> (ring f))).
Proof.
  unfold ValidateCounter.
  destruct (lim <=? c); [reflexivity|].
  rewrite !shiftr_blockBitLog, land_blockMask, land_bitMask.
  change ringBlocks with 128. change windowSize with 8128.
  assert (0 <= c mod 64) as Hp by (apply Z.mod_pos_bound; lia).
  destruct (last f <? c); cbv zeta; simpl ring; simpl last.
  - rewrite lor_bit_eqb by exact Hp. reflexivity.
  - destruct (8128 <? last f - c); [reflexivity|].
    rewrite lor_bit_eqb by exact Hp. reflexivity.
Qed.

(** The invariant of a filter: the ring has its 128 blocks, and every bit
    set in it stands for a counter of the window that ends at [last]. *)
Definition Inv (f : Filter) : Prop :=
  length (ring f) = 128%nat /\
  0 <= last f /\
  forall (i : nat) (p : Z),
    (i < 128)%nat -> 0 <= p < 64 -> Z.testbit (ring f !!! i) p = true ->
    exists b, 0 <= b /\ b mod 128 = Z.of_nat i /\
              last f / 64 - 128 < b <= last f / 64 /\ b * 64 + p <= last f.

(** [c] was accepted: it is behind the window, or its bit is set. *)
Definition Seen (f : Filter) (c : Z) : Prop :=
  c <= last f /\ (windowSize < last f - c \/ bit_set f c = true).

Lemma slot_lt c : (slot c < 128)%nat.
Proof.
  unfold slot. pose proof (Z.mod_pos_bound (c / 64) 128). lia.
Qed.

Lemma slot_of_nat c : Z.of_nat (slot c) = (c / 64) mod 128.
Proof.
  unfold slot. pose proof (Z.mod_pos_bound (c / 64) 128). lia.
Qed.

Lemma Inv_zero : Inv zero.
Proof.
  split; [reflexivity|]. split; [simpl; lia|].
  intros i p Hi Hp Hb. exfalso.
  assert (ring zero !!! i = 0) as H0.
  { unfold zero. cbn [ring]. apply lookup_total_replicate_2. exact Hi. }
  rewrite H0, Z.bits_0 in Hb. discriminate.
Qed.

Local Ltac euclid := Z.to_euclidean_division_equations; lia.

Lemma Inv_ValidateCounter f c lim :
  Inv f -> 0 <= c -> Inv (ValidateCounter f c lim).2.
Proof.
  intros (Hlen & Hlast & Hbits) Hc.
  rewrite ValidateCounter_unfold.
  destruct (lim <=? c); [now repeat split|].
  pose proof (slot_lt c) as Hslot.
  assert (0 <= c mod 64 < 64) as Hp by (apply Z.mod_pos_bound; lia).
  destruct (Z.ltb_spec (last f) c) as [Hmove|Hstay]; cbv zeta.
  - set (d := c / 64 - last f / 64).
    set (n := Z.to_nat (if 128 <? d then 128 else d)).
    set (ring1 := clear (ring f) (last f / 64 + 1) n).
    assert (length ring1 = 128%nat) as Hlen1 by (unfold ring1; now rewrite clear_length).
    split; [simpl; now rewrite length_insert|]. split; [simpl; lia|].
    simpl last. simpl ring. intros i p Hi Hpr Hb.
    assert (Z.testbit (ring1 !!! i) p = true \/ (i = slot c /\ p = c mod 64)) as [Hold|[-> ->]].
    { destruct (decide (i = slot c)) as [->|Hne].
      - rewrite list_lookup_total_insert_eq, testbit_lor_bit in Hb by lia.
        apply orb_true_iff in Hb as [Hb|Hb]; [now left|right]. 
        split; [reflexivity|]. apply Z.eqb_eq in Hb. lia.
      - rewrite list_lookup_total_insert_ne in Hb by congruence. now left. }
    + destruct (clear_cases (ring f) (last f / 64 + 1) n i) as [H0|[Heq Hmiss]]; [lia| |].
      { fold ring1 in H0. rewrite H0, Z.bits_0 in Hold. discriminate. }
      fold ring1 in Heq. rewrite Heq in Hold.
      destruct (Hbits i p Hi Hpr Hold) as (b & Hb0 & Hbi & Hbw & Hbl).
      exists b. split; [exact Hb0|]. split; [exact Hbi|].
      assert (c / 64 - 128 < b) as Hlow.
      { destruct (Z.le_gt_cases b (c / 64 - 128)) as [Hle|]; [exfalso|lia].
        assert (last f / 64 <= c / 64) by euclid.
        apply (Hmiss (b + 128 - (last f / 64 + 1))).
        - subst n d. destruct (128 <? c / 64 - last f / 64) eqn:E.
          + apply Z.ltb_lt in E. lia.
          + apply Z.ltb_ge in E. lia.
        - replace (last f / 64 + 1 + (b + 128 - (last f / 64 + 1))) with (b + 1 * 128) by lia.
          rewrite Z.mod_add by lia. exact Hbi. }
      split; [|lia]. split; [exact Hlow|]. euclid.
    + exists (c / 64). split; [euclid|]. split; [symmetry; apply slot_of_nat|].
      split; [lia|]. euclid.
  - destruct (Z.ltb_spec 8128 (last f - c)) as [Hbehind|Hwin]; [now repeat split|].
    split; [simpl; now rewrite length_insert|]. split; [simpl; lia|].
    simpl last. simpl ring. intros i p Hi Hpr Hb.
    destruct (decide (i = slot c)) as [->|Hne].
    + rewrite list_lookup_total_insert_eq, testbit_lor_bit in Hb by lia.
      apply orb_true_iff in Hb as [Hb|Hb]; [now apply Hbits|].
      apply Z.eqb_eq in Hb. subst p.
      exists (c / 64). split; [euclid|]. split; [symmetry; apply slot_of_nat|].
      split; euclid.
    + rewrite list_lookup_total_insert_ne in Hb by congruence. now apply Hbits.
Qed.


(** An accepted counter is seen from then on. *)
Lemma Seen_accepted f c lim f' :
  Inv f -> 0 <= c -> ValidateCounter f c lim = (true, f') -> Seen f' c.
Proof.
  intros (Hlen & Hlast & Hbits) Hc. rewrite ValidateCounter_unfold.
  pose proof (slot_lt c) as Hslot.
  assert (0 <= c mod 64 < 64) as Hp by (apply Z.mod_pos_bound; lia).
  destruct (lim <=? c); [discriminate|].
  destruct (Z.ltb_spec (last f) c) as [Hmove|Hstay]; cbv zeta.
  - intros [= _ <-]. split; [simpl; lia|right].
    unfold bit_set. cbn [ring].
    rewrite list_lookup_total_insert_eq, testbit_lor_bit, Z.eqb_refl by
      (rewrite ?clear_length; lia).
    apply orb_true_r.
  - destruct (8128 <? last f - c); [discriminate|].
    intros [= _ <-]. split; [simpl; lia|right].
    unfold bit_set. cbn [ring].
    rewrite list_lookup_total_insert_eq, testbit_lor_bit, Z.eqb_refl by lia.
    apply orb_true_r.
Qed.

(** A seen counter stays seen, whatever is validated next. *)
Lemma Seen_ValidateCounter f c0 c lim :
  Inv f -> 0 <= c0 -> 0 <= c -> Seen f c0 -> Seen (ValidateCounter f c lim).2 c0.
Proof.
  intros (Hlen & Hlast & Hbits) Hc0 Hc [Hle Hseen].
  rewrite ValidateCounter_unfold.
  pose proof (slot_lt c) as Hslot. pose proof (slot_lt c0) as Hslot0.
  assert (0 <= c mod 64 < 64) as Hp by (apply Z.mod_pos_bound; lia).
  change windowSize with 8128 in *.
  destruct (lim <=? c); [now split|].
  destruct (Z.ltb_spec (last f) c) as [Hmove|Hstay]; cbv zeta.
  - split; [simpl; lia|]. cbn [last snd].
    destruct (Z.le_gt_cases (c - c0) 8128) as [Hnear|Hfar]; [right|left; exact Hfar].
    destruct Hseen as [Hbehind|Hbit]; [lia|].
    unfold bit_set in *. cbn [ring snd].
    set (n := Z.to_nat _).
    assert (clear (ring f) (last f / 64 + 1) n !!! slot c0 = ring f !!! slot c0) as Hkeep.
    { apply clear_miss. intros j Hj. rewrite slot_of_nat. intros Heq.
      assert (last f / 64 + 1 + j <= c / 64).
      { subst n. destruct (128 <? c / 64 - last f / 64) eqn:E.
        - apply Z.ltb_lt in E. lia.
        - apply Z.ltb_ge in E. lia. }
      clear Hbits Hbit. euclid. }
    destruct (decide (slot c0 = slot c)) as [Hs|Hs].
    + rewrite <- Hs, list_lookup_total_insert_eq, testbit_lor_bit, Hkeep, Hbit by
        (rewrite ?clear_length; lia).
      reflexivity.
    + rewrite list_lookup_total_insert_ne, Hkeep by congruence. exact Hbit.
  - destruct (8128 <? last f - c); [now split|].
    split; [simpl; lia|]. cbn [last snd].
    destruct Hseen as [Hbehind|Hbit]; [left; exact Hbehind|right].
    unfold bit_set in *. cbn [ring snd].
    destruct (decide (slot c0 = slot c)) as [Hs|Hs].
    + rewrite <- Hs, list_lookup_total_insert_eq, testbit_lor_bit, Hbit by lia.
      reflexivity.
    + rewrite list_lookup_total_insert_ne by congruence. exact Hbit.
Qed.

(** A seen counter is refused, and refusing it leaves the filter as it
    was. *)
Lemma ValidateCounter_Seen f c lim :
  Inv f -> 0 <= c -> Seen f c -> ValidateCounter f c lim = (false, f).
Proof.
  intros (Hlen & Hlast & Hbits) Hc [Hle Hseen].
  rewrite ValidateCounter_unfold.
  pose proof (slot_lt c) as Hslot.
  assert (0 <= c mod 64 < 64) as Hp by (apply Z.mod_pos_bound; lia).
  change windowSize with 8128 in *.
  destruct (lim <=? c); [reflexivity|].
  destruct (Z.ltb_spec (last f) c) as [Hmove|_]; [lia|].
  destruct (Z.ltb_spec 8128 (last f - c)) as [_|Hwin]; [reflexivity|].
  destruct Hseen as [Hbehind|Hbit]; [lia|]. unfold bit_set in Hbit.
  cbv zeta. rewrite Hbit. cbn [negb]. f_equal.
  assert (Z.lor (ring f !!! slot c) (Z.shiftl 1 (c mod 64)) = ring f !!! slot c) as ->.
  { symmetry. apply Z.eqb_eq. rewrite lor_bit_eqb by lia. exact Hbit. }
  rewrite list_insert_id; [now destruct f|].
  apply list_lookup_lookup_total_lt. lia.
Qed.

(** A filter that holds its invariant changes only when it accepts. *)
Lemma ValidateCounter_refused f c lim f' :
  Inv f -> 0 <= c -> ValidateCounter f c lim = (false, f') -> f' = f.
Proof.
  intros HInv Hc Hv. 
  assert (Seen f c \/ lim <= c) as [Hs|Hl].
  { destruct HInv as (Hlen & Hlast & Hbits).
    rewrite ValidateCounter_unfold in Hv.
    pose proof (slot_lt c) as Hslot.
    assert (0 <= c mod 64 < 64) as Hp by (apply Z.mod_pos_bound; lia).
    destruct (Z.leb_spec lim c) as [Hlim|Hlim]; [now right|left].
    destruct (Z.ltb_spec (last f) c) as [Hmove|Hstay]; cbv zeta in Hv.
    - exfalso. injection Hv as Hb _. apply negb_false_iff in Hb.
      set (n := Z.to_nat _) in Hb.
      destruct (clear_cases (ring f) (last f / 64 + 1) n (slot c)) as [H0|[Heq Hmiss]]; [lia| |].
      + rewrite H0, Z.bits_0 in Hb. discriminate.
      + rewrite Heq in Hb.
        destruct (Hbits (slot c) (c mod 64) Hslot Hp Hb) as (b & Hb0 & Hbi & Hbw & Hbl).
        rewrite slot_of_nat in Hbi.
        destruct (Z.eq_dec (c / 64) (last f / 64)) as [Hsame|Hdiff].
        * clear Hmiss Hbits Hb Heq. euclid.
        * assert (last f / 64 < c / 64) as Hlt by (clear Hmiss Hbits Hb Heq Hbi; euclid).
          apply (Hmiss (if 128 <? c / 64 - last f / 64
                        then b + 128 - (last f / 64 + 1)
                        else c / 64 - (last f / 64 + 1))).
          -- subst n. destruct (Z.ltb_spec 128 (c / 64 - last f / 64)); lia.
          -- destruct (Z.ltb_spec 128 (c / 64 - last f / 64)).
             ++ replace (last f / 64 + 1 + (b + 128 - (last f / 64 + 1))) with (b + 1 * 128)
                  by lia.
                rewrite Z.mod_add by lia. rewrite Hbi. symmetry. apply slot_of_nat.
             ++ replace (last f / 64 + 1 + (c / 64 - (last f / 64 + 1))) with (c / 64) by lia.
                symmetry. apply slot_of_nat.
    - split; [lia|]. change windowSize with 8128.
      destruct (Z.ltb_spec 8128 (last f - c)); [now left|right].
      injection Hv as Hb _. apply negb_false_iff in Hb. exact Hb. }
  - rewrite (ValidateCounter_Seen f c lim HInv Hc Hs) in Hv. congruence.
  - unfold ValidateCounter in Hv. destruct (Z.leb_spec lim c); [congruence|lia].
Qed.

(** The zero filter accepts counter 0. *)
Lemma ValidateCounter_zero_0 : (ValidateCounter zero 0 MaxUint64).1 = true.
Proof. vm_compute. reflexivity. Qed.

End ReplayFacts.

(** ** The service *)
Module ShadowaeadFacts.
Import Shadowaead ReplayFacts.

Lemma float64_exceeds_30 x : (30 <? math_Abs (float64 x)) = (30 <? Z.abs x).
Proof.
  unfold math_Abs, float64.
  destruct (Z.ltb_spec (Z.abs x) (2 ^ 53)) as [Hsmall|Hbig]; [reflexivity|].
  cbv zeta.
  set (a := Z.abs x) in *. set (e := Z.log2 a - 52).
  assert (0 < a) as Ha by lia.
  assert (53 <= Z.log2 a) as Hlog.
  { rewrite <- (Z.log2_pow2 53) by lia. apply Z.log2_le_mono. exact Hbig. }
  assert (1 <= e) as He by (unfold e; lia).
  assert (2 ^ 52 <= a / 2 ^ e) as Hq.
  { pose proof (Z.log2_spec a Ha) as [Hlo _].
    replace (Z.log2 a) with (52 + e) in Hlo by (unfold e; lia).
    rewrite Z.pow_add_r in Hlo by lia.
    apply Z.div_le_lower_bound; [apply Z.pow_pos_nonneg; lia|]. lia. }
  assert (2 <= 2 ^ e) as Hpow.
  { change 2 with (2 ^ 1) at 1. apply Z.pow_le_mono_r; lia. }
  set (q := a / 2 ^ e) in *.
  set (q' := if a mod 2 ^ e <? 2 ^ (e - 1) then q
             else if 2 ^ (e - 1) <? a mod 2 ^ e then q + 1
             else if Z.even q then q else q + 1).
  assert (q <= q') as Hq'.
  { unfold q'. repeat match goal with |- context [if ?b then _ else _] => destruct b end; lia. }
  assert (30 < q' * 2 ^ e) as Hbig' by nia.
  assert (Z.abs (Z.sgn x * (q' * 2 ^ e)) = q' * 2 ^ e) as ->.
  { assert (Z.sgn x = 1 \/ Z.sgn x = -1) as [-> | ->] by lia; lia. }
  transitivity true; [apply Z.ltb_lt; lia|symmetry; apply Z.ltb_lt; lia].
Qed.

Lemma badTimestampConn_spec now epoch :
  30 <= now < 2 ^ 63 -> 0 <= epoch < 2 ^ 64 ->
  badTimestampConn now epoch = false <-> -30 <= now - epoch <= 30.
Proof.
  intros Hnow Hepoch. unfold badTimestampConn.
  rewrite float64_exceeds_30, Z.ltb_ge. unfold int64.
  Z.to_euclidean_division_equations. lia.
Qed.

Lemma badTimestampPacket_spec now epoch :
  30 <= now < 2 ^ 63 -> 0 <= epoch < 2 ^ 64 ->
  badTimestampPacket now epoch = false <-> 0 <= now - epoch <= 30.
Proof.
  intros Hnow Hepoch. unfold badTimestampPacket.
  rewrite float64_exceeds_30, Z.ltb_ge. unfold uint64.
  Z.to_euclidean_division_equations. lia.
Qed.

Section Facts.
Context `{Collaborators}.

Lemma be_uint_nonneg bs : 0 <= be_uint bs.
Proof.
  unfold be_uint.
  assert (forall acc, 0 <= acc -> 0 <= fold_left (fun a b => a * 256 + byte_to_Z b) bs acc) as Hgen.
  { induction bs as [|b bs IH]; intros acc Hacc; simpl; [exact Hacc|].
    apply IH. unfold byte_to_Z. lia. }
  apply Hgen. lia.
Qed.

Lemma binary_Read_nonneg n buffer x rest :
  binary_Read n buffer = inr (x, rest) -> 0 <= x.
Proof.
  unfold binary_Read. destruct buffer; [discriminate|].
  destruct (_ <? _)%nat; [discriminate|]. intros [= <- _]. apply be_uint_nonneg.
Qed.

(** The session and packet identifiers a datagram carries, as the first
    lines of [NewPacket] read them. *)
Definition packetIds (s : Service) (buffer : bytes) : option (Z * Z) :=
  match openHeader s buffer with
  | Done (inr (_, buffer)) =>
    match binary_Read 8 buffer with
    | inr (sessionId, buffer) =>
      match binary_Read 8 buffer with
      | inr (packetId, _) => Some (sessionId, packetId)
      | inl _ => None
      end
    | inl _ => None
    end
  | _ => None
  end.

Lemma process_session session hdr pid now buffer session' res :
  process session hdr pid now buffer = Done (session', res) ->
  session' = set_filter (Replay.ValidateCounter (filter session) pid MaxUint64).2 session /\
  ((Replay.ValidateCounter (filter session) pid MaxUint64).1 = false -> res = inl ErrPacketIdNotUnique).
Proof.
  unfold process. destruct (Replay.ValidateCounter _ _ _) as [valid f]. simpl.
  destruct valid; simpl.
  - repeat case_match; intros; simplify_eq; split; congruence.
  - intros; simplify_eq. split; congruence.
Qed.

Lemma newUDPSession_inv m x m' :
  newUDPSession m = Done (x, m') ->
  m' = set_rngPos (rngPos m + 8)%nat m /\ filter x = Replay.zero /\
  packetId x = MaxUint64 /\ remoteAddr x = None.
Proof.
  unfold newUDPSession, rng_read. cbv zeta. cbn [fst snd].
  intros Hn. repeat case_match; simplify_eq; repeat split; reflexivity.
Qed.

Lemma LoadOrStore_inv s k x loaded s1 :
  LoadOrStore s k = Done (x, loaded, s1) ->
  (loaded = true /\ s1 = s /\ sessions s !! k = Some x) \/
  (loaded = false /\ sessions s !! k = None /\ filter x = Replay.zero /\
   sessions s1 = <[k := x]> (sessions s)).
Proof.
  unfold LoadOrStore. destruct (sessions s !! k) as [y|] eqn:Hk.
  - intros [= <- <- <-]. left. repeat split; reflexivity.
  - destruct (newUDPSession s) as [[y m]|] eqn:Hn; [|discriminate].
    intros [= <- <- <-]. right.
    apply newUDPSession_inv in Hn as (-> & Hf & _). repeat split; assumption.
Qed.

(** What a call of [NewPacket] that returns has done: it stopped before
    the session was looked up, or it handled the packet on the session
    [entry] and left the table with or without it. *)
Lemma NewPacket_inv s now source buffer s' r :
  NewPacket s now source buffer = Done (s', r) ->
  (s' = s /\ packetIds s buffer = None /\ r <> None) \/
  exists sid pid session loaded s1 entry,
    packetIds s buffer = Some (sid, pid) /\
    LoadOrStore s sid = Done (session, loaded, s1) /\
    filter entry = (Replay.ValidateCounter (filter session) pid MaxUint64).2 /\
    (loaded = true ->
     entry = set_filter (Replay.ValidateCounter (filter session) pid MaxUint64).2
               (set_remoteAddr (Some source) session)) /\
    ((r = None /\ (Replay.ValidateCounter (filter session) pid MaxUint64).1 = true /\
      sessions s' = <[sid := entry]> (sessions s1)) \/
     (exists err, r = Some err /\
        ((Replay.ValidateCounter (filter session) pid MaxUint64).1 = false ->
         err = ErrPacketIdNotUnique) /\
        s' = (returnErr (store sid entry s1) loaded sid err).1)).
Proof.
  unfold NewPacket.
  destruct (openHeader s buffer) as [[err|[hdr b0]]|] eqn:HO; [|  |discriminate].
  { intros [= <- <-]. left. unfold packetIds. rewrite HO. repeat split; congruence. }
  destruct (binary_Read 8 b0) as [err|[sid b1]] eqn:HR1.
  { intros [= <- <-]. left. unfold packetIds. rewrite HO, HR1. repeat split; congruence. }
  destruct (binary_Read 8 b1) as [err|[pid b2]] eqn:HR2.
  { intros [= <- <-]. left. unfold packetIds. rewrite HO, HR1, HR2.
    repeat split; congruence. }
  assert (packetIds s buffer = Some (sid, pid)) as Hids.
  { unfold packetIds. rewrite HO, HR1, HR2. reflexivity. }
  destruct (LoadOrStore s sid) as [[[session loaded] s1]|] eqn:HL; [|discriminate].
  match goal with |- match ?c with _ => _ end = _ -> _ => destruct c as [session1|] eqn:Hc end;
    [|discriminate].
  destruct (process _ _ _ _ _) as [[session2 res]|] eqn:HP; [|discriminate].
  apply process_session in HP as [-> Hres]. cbn [filter set_remoteAddr] in Hres.
  assert (filter session1 = filter session /\ (loaded = true -> session1 = session)) as [Hf Hl].
  { destruct loaded; cbn [negb] in Hc.
    - injection Hc as ->. split; [reflexivity|congruence].
    - split; [|discriminate]. destruct hdr; [destruct (constructor s1)|]; simplify_eq;
        reflexivity. }
  rewrite Hf in Hres. intros HD. right.
  exists sid, pid, session, loaded, s1.
  exists (set_filter (Replay.ValidateCounter (filter session1) pid MaxUint64).2
            (set_remoteAddr (Some source) session1)).
  split; [exact Hids|]. split; [exact HL|].
  split; [cbn [filter set_filter]; rewrite Hf; reflexivity|].
  split; [intros Hld; rewrite (Hl Hld); reflexivity|].
  cbn [filter set_remoteAddr] in HD.
  destruct res as [err|[dest payload]].
  - right. exists err. injection HD as <- <-. repeat split.
    intros Hv. specialize (Hres Hv). congruence.
  - left. injection HD as <- <-. split; [reflexivity|]. split; [|reflexivity].
    destruct (Replay.ValidateCounter (filter session) pid MaxUint64).1 eqn:E; [reflexivity|].
    specialize (Hres eq_refl). discriminate.
Qed.


Lemma packetIds_nonneg s buffer sid pid :
  packetIds s buffer = Some (sid, pid) -> 0 <= pid.
Proof.
  unfold packetIds. intros Hp. repeat case_match; simplify_eq.
  eapply binary_Read_nonneg; eassumption.
Qed.

Lemma set_filter_id (x : serverUDPSession) : set_filter (filter x) x = x.
Proof. now destruct x. Qed.

(** A datagram for a session of the table whose window refuses its packet
    id: the call returns [ErrPacketIdNotUnique], and the only thing written
    is the source address, into [remoteAddr]. *)
Lemma NewPacket_refused s now source buffer sid pid x :
  packetIds s buffer = Some (sid, pid) ->
  sessions s !! sid = Some x ->
  Replay.ValidateCounter (filter x) pid MaxUint64 = (false, filter x) ->
  NewPacket s now source buffer =
  Done (store sid (set_remoteAddr (Some source) x) s, Some ErrPacketIdNotUnique).
Proof.
  unfold packetIds, NewPacket. intros Hids Hx Hv.
  destruct (openHeader s buffer) as [[err|[hdr b0]]|]; try discriminate.
  destruct (binary_Read 8 b0) as [err|[sid' b1]]; [discriminate|].
  destruct (binary_Read 8 b1) as [err|[pid' b2]]; [discriminate|].
  injection Hids as -> ->.
  unfold LoadOrStore. rewrite Hx. cbn [negb].
  unfold process. cbn [filter set_remoteAddr]. rewrite Hv. cbn [negb].
  unfold returnErr. cbn [negb].
  change (set_filter (filter x) (set_remoteAddr (Some source) x))
    with (set_filter (filter (set_remoteAddr (Some source) x)) (set_remoteAddr (Some source) x)).
  rewrite set_filter_id. reflexivity.
Qed.

(** A datagram as the service receives it. *)
Record Datagram : Type := mkDatagram { dg_now : Z; dg_source : AddrPort; dg_data : bytes }.

Definition receive (s : Service) (p : Datagram) : outcome (Service * option error) :=
  NewPacket s (dg_now p) (dg_source p) (dg_data p).

(** The service after a sequence of datagrams, if none made it panic. *)
Fixpoint receiveAll (s : Service) (ps : list Datagram) : option Service :=
  match ps with
  | [] => Some s
  | p :: ps =>
    match receive s p with
    | Done (s', _) => receiveAll s' ps
    | Panic _ => None
    end
  end.

(** Every replay window of the table holds the filter's invariant. *)
Definition windows_ok (s : Service) : Prop :=
  forall k x, sessions s !! k = Some x -> Inv (filter x).

Lemma NewPacket_session_step s now source buffer s' r k :
  NewPacket s now source buffer = Done (s', r) ->
  sessions s' !! k = sessions s !! k \/
  exists pid, 0 <= pid /\
    ((exists x x', sessions s !! k = Some x /\ sessions s' !! k = Some x' /\
        filter x' = (Replay.ValidateCounter (filter x) pid MaxUint64).2) \/
     (exists x', sessions s !! k = None /\ sessions s' !! k = Some x' /\ r = None /\
        Replay.ValidateCounter Replay.zero pid MaxUint64 = (true, filter x'))).
Proof.
  intros HNP.
  destruct (NewPacket_inv _ _ _ _ _ _ HNP) as
    [(-> & _ & _)|(sid & pid & session & loaded & s1 & entry & Hids & HL & Hf & _ & Hres)];
    [now left|].
  pose proof (packetIds_nonneg _ _ _ _ Hids) as Hpid.
  destruct (decide (k = sid)) as [->|Hne].
  - destruct (LoadOrStore_inv _ _ _ _ _ HL) as [(-> & -> & Hx)|(-> & Hx & Hz & Hs1)].
    + right. exists pid. split; [exact Hpid|left]. exists session, entry.
      split; [exact Hx|]. split; [|exact Hf].
      destruct Hres as [(_ & _ & ->)|(err & _ & _ & ->)]; cbn; apply lookup_insert_eq.
    + destruct Hres as [(-> & Hv & ->)|(err & _ & _ & ->)].
      * right. exists pid. split; [exact Hpid|right]. exists entry.
        split; [exact Hx|]. split; [apply lookup_insert_eq|]. split; [reflexivity|].
        rewrite Hf, Hz.
        destruct (Replay.ValidateCounter Replay.zero pid MaxUint64) as [v f] eqn:E.
        rewrite Hz, E in Hv. cbn in Hv. subst v. reflexivity.
      * left. cbn. rewrite lookup_delete_eq. symmetry. exact Hx.
  - left.
    assert (sessions s1 !! k = sessions s !! k) as Hs1.
    { destruct (LoadOrStore_inv _ _ _ _ _ HL) as [(_ & -> & _)|(_ & _ & _ & ->)];
        [reflexivity|]. apply lookup_insert_ne. congruence. }
    destruct Hres as [(_ & _ & ->)|(err & _ & _ & ->)].
    + rewrite lookup_insert_ne by congruence. exact Hs1.
    + unfold returnErr, store. destruct loaded; cbn.
      * rewrite lookup_insert_ne by congruence. exact Hs1.
      * rewrite lookup_delete_ne, lookup_insert_ne by congruence. exact Hs1.
Qed.

Lemma windows_ok_NewPacket s now source buffer s' r :
  windows_ok s -> NewPacket s now source buffer = Done (s', r) -> windows_ok s'.
Proof.
  intros Hok HNP k x' Hk.
  destruct (NewPacket_session_step _ _ _ _ _ _ k HNP) as
    [Heq|(pid & Hpid & [(x & y & Hx & Hy & Hf)|(y & Hx & Hy & _ & Hv)])].
  - rewrite Heq in Hk. eapply Hok; eassumption.
  - rewrite Hy in Hk. injection Hk as <-. rewrite Hf.
    apply Inv_ValidateCounter; [eapply Hok; eassumption|exact Hpid].
  - rewrite Hy in Hk. injection Hk as <-.
    pose proof (Inv_ValidateCounter Replay.zero pid MaxUint64 Inv_zero Hpid) as HI.
    rewrite Hv in HI. exact HI.
Qed.

Lemma windows_ok_receiveAll ps s s' :
  windows_ok s -> receiveAll s ps = Some s' -> windows_ok s'.
Proof.
  revert s. induction ps as [|p ps IH]; intros s Hok; cbn.
  - intros [= <-]. exact Hok.
  - destruct (receive s p) as [[s1 r]|] eqn:E; [|discriminate].
    apply IH. eapply windows_ok_NewPacket; eassumption.
Qed.

Lemma windows_ok_NewService method key rng timeout s :
  NewService method key rng timeout = (Some s, None) -> windows_ok s.
Proof.
  unfold NewService. destruct (negb _); [discriminate|].
  intros [= <-] k x. repeat case_match; cbn; rewrite lookup_empty; discriminate.
Qed.

(** The session [k] is in the table and its window has seen [c]. *)
Definition seen_in (s : Service) (k c : Z) : Prop :=
  exists x, sessions s !! k = Some x /\ Seen (filter x) c.

Lemma seen_in_NewPacket s now source buffer s' r k c :
  windows_ok s -> 0 <= c -> seen_in s k c ->
  NewPacket s now source buffer = Done (s', r) -> seen_in s' k c.
Proof.
  intros Hok Hc (x & Hx & Hs) HNP.
  destruct (NewPacket_session_step _ _ _ _ _ _ k HNP) as
    [Heq|(pid & Hpid & [(y & y' & Hy & Hy' & Hf)|(y' & Hy & _)])].
  - exists x. rewrite Heq. split; assumption.
  - rewrite Hx in Hy. injection Hy as <-. exists y'. split; [exact Hy'|].
    rewrite Hf. apply Seen_ValidateCounter; try assumption. eapply Hok; eassumption.
  - congruence.
Qed.

Lemma seen_in_receiveAll ps s s' k c :
  windows_ok s -> 0 <= c -> seen_in s k c -> receiveAll s ps = Some s' -> seen_in s' k c.
Proof.
  revert s. induction ps as [|p ps IH]; intros s Hok Hc Hs; cbn.
  - intros [= <-]. exact Hs.
  - destruct (receive s p) as [[s1 r]|] eqn:E; [|discriminate].
    apply IH; [eapply windows_ok_NewPacket; eassumption|exact Hc|].
    eapply seen_in_NewPacket; eassumption.
Qed.

Lemma seen_in_accepted s now source buffer s' sid pid :
  windows_ok s -> packetIds s buffer = Some (sid, pid) ->
  NewPacket s now source buffer = Done (s', None) -> seen_in s' sid pid.
Proof.
  intros Hok Hids HNP.
  destruct (NewPacket_inv _ _ _ _ _ _ HNP) as
    [(_ & _ & Hr)|(sid' & pid' & session & loaded & s1 & entry & Hids' & HL & Hf & _ & Hres)];
    [congruence|].
  rewrite Hids in Hids'. injection Hids' as <- <-.
  pose proof (packetIds_nonneg _ _ _ _ Hids) as Hpid.
  destruct Hres as [(_ & Hv & Hs')|(err & Herr & _)]; [|discriminate].
  exists entry. split; [rewrite Hs'; apply lookup_insert_eq|].
  rewrite Hf.
  assert (Inv (filter session)) as HI.
  { destruct (LoadOrStore_inv _ _ _ _ _ HL) as [(_ & _ & Hx)|(_ & _ & -> & _)];
      [eapply Hok; eassumption|apply Inv_zero]. }
  destruct (Replay.ValidateCounter (filter session) pid MaxUint64) as [v f] eqn:E.
  cbn in Hv. subst v. eapply Seen_accepted; eassumption.
Qed.

(** C1.  With the server's clock at [now] (30 or later, as every Unix
    time of today is) and any 64-bit [epoch]: the stream handshake
    (line 112) lets the timestamp pass exactly when it is within 30
    seconds of [now], before or after; the datagram path (line 284) lets
    it pass exactly when it is at most 30 seconds old.  A timestamp ahead
    of the clock, by one second or by thirty, passes the first and is
    refused by the second: the two paths do not apply the same policy. *)
Theorem timestamp_window_differs now epoch :
  30 <= now < 2 ^ 63 -> 0 <= epoch < 2 ^ 64 ->
  (badTimestampConn now epoch = false <-> -30 <= now - epoch <= 30) /\
  (badTimestampPacket now epoch = false <-> 0 <= now - epoch <= 30).
Proof.
  intros Hnow Hepoch. split.
  - apply badTimestampConn_spec; assumption.
  - apply badTimestampPacket_spec; assumption.
Qed.

(** C2, as amended.  On a service built by [NewService], after any
    datagrams: once a datagram with the ids [(sid, pid)] was accepted,
    a later datagram with the same ids is refused with
    [ErrPacketIdNotUnique], whatever was received in between; the session
    is still in the table, and the service the call leaves is the one it
    found but for the session's [remoteAddr], which now holds the source
    of the refused datagram (line 244 writes it before the replay
    window is asked). *)
Theorem replayed_datagram_refused method key rng timeout s before s0 p1 s1 between sn p2
    sid pid :
  NewService method key rng timeout = (Some s, None) ->
  receiveAll s before = Some s0 ->
  packetIds s0 (dg_data p1) = Some (sid, pid) ->
  receive s0 p1 = Done (s1, None) ->
  receiveAll s1 between = Some sn ->
  packetIds sn (dg_data p2) = Some (sid, pid) ->
  exists x,
    sessions sn !! sid = Some x /\
    receive sn p2 =
    Done (store sid (set_remoteAddr (Some (dg_source p2)) x) sn, Some ErrPacketIdNotUnique).
Proof.
  intros Hnew Hbefore Hids1 Hacc Hbetween Hids2. unfold receive in Hacc |- *.
  assert (windows_ok s0) as Hok0.
  { eapply windows_ok_receiveAll; [|exact Hbefore].
    eapply windows_ok_NewService; exact Hnew. }
  assert (windows_ok s1) as Hok1.
  { eapply windows_ok_NewPacket; [exact Hok0|exact Hacc]. }
  pose proof (packetIds_nonneg _ _ _ _ Hids1) as Hpid.
  assert (seen_in sn sid pid) as (x & Hx & Hseen).
  { eapply seen_in_receiveAll; [exact Hok1|exact Hpid| |exact Hbetween].
    eapply seen_in_accepted; [exact Hok0|exact Hids1|exact Hacc]. }
  exists x. split; [exact Hx|].
  apply NewPacket_refused with (pid := pid); [exact Hids2|exact Hx|].
  apply ValidateCounter_Seen; [|exact Hpid|exact Hseen].
  eapply (windows_ok_receiveAll between s1 sn Hok1 Hbetween); exact Hx.
Qed.

(** C4.  A call of [NewPacket] that returns an error leaves the Session
    Table with the entries it found: an id absent before is absent after,
    an id present before is present after, and when the session id of the
    datagram was not in the table - the entry was created by this call -
    the table is equal to the one the call found, so the next datagram
    for that id creates the session again. *)
Theorem failed_datagram_leaves_table s now source buffer s' err :
  NewPacket s now source buffer = Done (s', Some err) ->
  (forall k, sessions s !! k = None -> sessions s' !! k = None) /\
  (forall k, is_Some (sessions s !! k) -> is_Some (sessions s' !! k)) /\
  (forall sid pid, packetIds s buffer = Some (sid, pid) -> sessions s !! sid = None ->
     sessions s' = sessions s).
Proof.
  intros HNP.
  destruct (NewPacket_inv _ _ _ _ _ _ HNP) as
    [(-> & Hids & _)|(sid & pid & session & loaded & s1 & entry & Hids & HL & _ & _ & Hres)].
  { split; [tauto|]. split; [tauto|]. intros; congruence. }
  destruct Hres as [(Hr & _)|(err' & _ & _ & ->)]; [discriminate|].
  destruct (LoadOrStore_inv _ _ _ _ _ HL) as [(-> & -> & Hx)|(-> & Hx & _ & Hs1)].
  - cbn. split; [|split].
    + intros k Hk. rewrite lookup_insert_ne by congruence. exact Hk.
    + intros k Hk. destruct (decide (sid = k)) as [->|Hne].
      * rewrite lookup_insert_eq. eauto.
      * rewrite lookup_insert_ne by exact Hne. exact Hk.
    + intros sid' pid' Hids'. rewrite Hids in Hids'. injection Hids' as <- <-. congruence.
  - assert (sessions (returnErr (store sid entry s1) false sid err').1 = sessions s) as Heq.
    { cbn. rewrite Hs1, delete_insert_eq, delete_insert_eq. apply delete_id. exact Hx. }
    rewrite Heq. repeat split; auto.
Qed.

(** The ids of [n] successive calls of [nextPacketId]. *)
Fixpoint nextPacketIds (n : nat) (x : serverUDPSession) : list Z :=
  match n with
  | O => []
  | S n => let '(id, x) := nextPacketId x in id :: nextPacketIds n x
  end.

Lemma nextPacketIds_from n : forall (k : nat) x,
  packetId x = uint64 (Z.of_nat k - 1) -> Z.of_nat k + Z.of_nat n <= 2 ^ 64 ->
  nextPacketIds n x = map Z.of_nat (seq k n).
Proof.
  induction n as [|n IH]; intros k x Hx Hk; [reflexivity|].
  cbn [nextPacketIds nextPacketId seq map].
  assert (uint64 (packetId x + 1) = Z.of_nat k) as Hid.
  { rewrite Hx. unfold uint64. clear IH Hx.
    destruct k as [|k].
    - reflexivity.
    - replace (Z.of_nat (S k) - 1) with (Z.of_nat k) by lia.
      rewrite (Z.mod_small (Z.of_nat k)) by lia.
      rewrite Z.mod_small by lia. lia. }
  rewrite Hid. f_equal. apply IH; [|lia].
  cbn [packetId set_packetId]. unfold uint64.
  rewrite Z.mod_small; lia.
Qed.

(** C9.  From a session just made by [newUDPSession], [n] successive
    calls of [nextPacketId] (for [n] up to 2^64) return 0, 1, ..., n-1:
    each is one more than the one before and the first is 0, the least
    64-bit counter, which the zero replay window of a peer accepts. *)
Theorem nextPacketId_counts_from_zero m x m' n :
  newUDPSession m = Done (x, m') -> Z.of_nat n <= 2 ^ 64 ->
  nextPacketIds n x = map Z.of_nat (seq 0 n) /\
  (Replay.ValidateCounter Replay.zero 0 MaxUint64).1 = true.
Proof.
  intros Hnew Hn. split; [|exact ValidateCounter_zero_0].
  apply nextPacketIds_from; [|lia].
  apply newUDPSession_inv in Hnew as (_ & _ & -> & _). reflexivity.
Qed.

Lemma length_put_uint n x : length (put_uint n x) = n.
Proof.
  revert x. induction n as [|n IH]; intros x; cbn; [reflexivity|].
  rewrite length_app, IH. cbn. lia.
Qed.

Lemma length_rng_read n w : length (rng_read n w).1 = n.
Proof. cbn. now rewrite length_map, length_seq. Qed.

(** The header [WritePacket] builds before it seals, in the unified mode. *)
Definition unifiedHeader (w : Service) (session : serverUDPSession) (now : Z)
    (addr buffer : bytes) : bytes :=
  (rng_read PacketNonceSize w).1 ++ put_uint 8 (sessionId session)
    ++ put_uint 8 (nextPacketId session).1 ++ [HeaderTypeServer]
    ++ put_uint 8 (uint64 now) ++ put_uint 8 (remoteSessionId session)
    ++ put_uint 2 0 ++ addr ++ buffer.

(** C3.  In the unified mode [WritePacket] seals at
    [dataIndex = buffer.Len()], the length of the payload (line 325), not
    at the length of the nonce: [Seal] is given the first
    [len(payload)] bytes of the header as its nonce and the rest as its
    plaintext.  Unless the payload is exactly as long as the cipher's
    nonce the call panics; when it is, it returns the header up to that
    index followed by the sealing of what comes after. *)
Theorem WritePacket_unified_seals_at_payload_length w session now buffer destination c addr :
  udpCipher w = Some c ->
  WriteAddrPort destination = inr addr ->
  (PacketNonceSize + 35 + length addr + length buffer <= StackBufferSize)%nat ->
  let header := unifiedHeader w session now addr buffer in
  (length buffer <> aead_NonceSize c ->
   WritePacket w session now buffer destination = Panic "incorrect nonce length") /\
  (length buffer = aead_NonceSize c ->
   WritePacket w session now buffer destination =
   Done ((rng_read PacketNonceSize w).2, (nextPacketId session).2,
         inr (take (length buffer) header
              ++ aead_Seal c (take (length buffer) header) (drop (length buffer) header)))).
Proof.
  intros Hc Haddr Hfit header.
  assert (WritePacket w session now buffer destination =
          match Seal c (take (length buffer) header) (drop (length buffer) header) with
          | Panic msg => Panic msg
          | Done sealed =>
            Done ((rng_read PacketNonceSize w).2, (nextPacketId session).2,
                  inr (take (length buffer) header ++ sealed))
          end) as ->.
  { unfold WritePacket. rewrite Hc. cbn [rng_read nextPacketId fst snd udpCipher set_rngPos].
    rewrite Haddr. unfold Buffer_Write.
    match goal with |- context [(?a <=? ?b)%nat] => destruct (Nat.leb_spec a b) as [_|Hbad] end.
    - subst header. unfold unifiedHeader. cbn [rng_read nextPacketId fst snd sessionId
        remoteSessionId set_packetId]. rewrite Hc.
      repeat rewrite <- app_assoc. cbn [app]. reflexivity.
    - exfalso. repeat rewrite length_app in Hbad.
      rewrite !length_put_uint, length_map, length_seq in Hbad. cbn [length] in Hbad. lia. }
  assert (length (take (length buffer) header) = length buffer) as Hlen.
  { apply length_take_le. unfold header, unifiedHeader. repeat rewrite length_app. lia. }
  unfold Seal. rewrite Hlen. split; intros Hn.
  - destruct (Nat.eqb_spec (length buffer) (aead_NonceSize c)); [contradiction|reflexivity].
  - rewrite Hn, Nat.eqb_refl. reflexivity.
Qed.

(** C10.  [NewService] returns [ErrBadKey] and no service when the key
    is not [KeySaltSize] bytes long, and a service with no error when it
    is, whatever the method.  With a method that is none of the three
    names, the service has no AEAD constructor, no block constructor, key
    length 0 and no datagram cipher; a handshake on it whose salt can be
    read panics on the nil constructor. *)
Theorem NewService_checks_only_the_key method key rng timeout :
  (length key <> KeySaltSize -> NewService method key rng timeout = (None, Some ErrBadKey)) /\
  (length key = KeySaltSize -> exists s, NewService method key rng timeout = (Some s, None)) /\
  (length key = KeySaltSize ->
   method <> "2022-blake3-aes-128-gcm"%string ->
   method <> "2022-blake3-aes-256-gcm"%string ->
   method <> "2022-blake3-chacha20-poly1305"%string ->
   exists s,
     NewService method key rng timeout = (Some s, None) /\
     constructor s = None /\ blockConstructor s = None /\ keyLength s = 0 /\
     udpCipher s = None /\ udpBlockCipher s = None /\
     forall now conn salt rest,
       io_ReadFull KeySaltSize conn = inr (salt, rest) ->
       NewConnection s now conn = Panic "nil constructor").
Proof.
  unfold NewService. split; [|split].
  - intros Hlen. destruct (Nat.eqb_spec (length key) KeySaltSize); [contradiction|reflexivity].
  - intros ->. rewrite Nat.eqb_refl. cbn [negb]. eexists. reflexivity.
  - intros -> H1 H2 H3. rewrite Nat.eqb_refl. cbn [negb].
    apply String.eqb_neq in H1, H2, H3. rewrite H1, H2, H3.
    eexists. split; [reflexivity|].
    cbn [constructor blockConstructor keyLength udpCipher udpBlockCipher].
    repeat split.
    intros now conn salt rest Hsalt. unfold NewConnection. rewrite Hsalt.
    reflexivity.
Qed.

End Facts.
End ShadowaeadFacts.

(** ** The copy engine *)
Module BufioFacts.
Import Bufio.

(** The shape the six copy loops share: read an item, write it, count it. *)
Section Relay.
Context `{Network}.
Context {Item : Type}.
Variable read : World -> outcome (World * (error + Item)).
Variable write : Item -> World -> outcome (World * option error).
Variable len : Item -> Z.
Variable wrap : error -> error.











Lemma int64_small x : - 2 ^ 63 <= x < 2 ^ 63 -> int64 x = x.
Proof. intros Hx. unfold int64. rewrite Z.mod_small; lia. Qed.


End Relay.

Section Claims.
Context `{Network}.

















(** C5, as amended.  [Copy] returns the error "nil reader" when the
    source is nil, and "nil writer" when the source is not nil and the
    sink is; either way n is 0, the world is as it was and nothing was
    handed to a sink.  (Nothing is said of [CopyPacket], which has no
    such test.) *)
Theorem Copy_nil_endpoint fuel dst src w :
  (src = None ->
   Copy fuel dst src w = mkResult w [] (Returned 0 (Some (ErrNew "nil reader")))) /\
  (src <> None -> dst = None ->
   Copy fuel dst src w = mkResult w [] (Returned 0 (Some (ErrNew "nil writer")))).
Proof.
  split.
  - intros ->. reflexivity.
  - intros Hsrc ->. destruct src; [reflexivity|contradiction].
Qed.

(** [CopyPacket] has no such test: without a source it panics, whatever
    the sink. *)
Lemma CopyPacket_nil_source fuel dst w :
  exists msg handed, CopyPacket (S fuel) dst None w = mkResult w handed (Panicked msg).
Proof.
  unfold CopyPacket, CopyPacketWithPool.
  destruct (IsUnsafeWriter _).
  - cbn [CopyPacketWithPool_loop]. destruct (With_front _ _); cbn; eauto.
  - destruct (With_front _ _); cbn; eauto.
Qed.











(** The five data paths of the specification, section 4.1. *)
Inductive DataPath : Type :=
| FullObjectPassthrough
| SinkPull (wrapped : bool)
| SourceOwnedBuffers
| PooledBuffers
| ReusableBuffer.

(** A raw, unbuffered transport as a sink, and the sources that are as
    raw. *)
Definition raw_sink (t : GoType) : bool :=
  match t with TCPConn => true | _ => false end.
Definition raw_source (t : GoType) : bool :=
  match t with TCPConn | UnixConn | OSFile => true | OtherType => false end.

(** Path selection as the specification words it: checked in order, the
    first match wins. *)
Definition selectPath (dst : io_Writer) (src : io_Reader) : DataPath :=
  let source := UnwrapReader src in
  let sink := UnwrapWriter dst in
  let writer := ext_writer (NewExtendedWriter sink) in
  if is_WriterTo source then FullObjectPassthrough
  else if is_ReaderFrom sink then
    SinkPull (raw_sink (dynType_Writer sink) && negb (raw_source (dynType_Reader source)))
  else if bool_decide (is_Some (Cast_ThreadSafeReader (NewExtendedReader source)))
          && (CalculateFrontHeadroom writer =? 0) && (CalculateRearHeadroom writer =? 0)
  then SourceOwnedBuffers
  else if IsUnsafeWriter writer then PooledBuffers
  else ReusableBuffer.

(** What taking a path does. *)
Definition followPath (fuel : nat) (path : DataPath) (dst : io_Writer) (src : io_Reader)
    (w : World) : CopyResult Buffer :=
  let source := UnwrapReader src in
  let sink := UnwrapWriter dst in
  let reader := NewExtendedReader source in
  let writer := NewExtendedWriter sink in
  match path with
  | FullObjectPassthrough =>
    let '(w, (n, err)) := WriteTo source sink w in mkResult w [] (Returned n err)
  | SinkPull wrapped =>
    let '(w, (n, err)) :=
      ReadFrom sink (if wrapped then readOnlyReader source else direct source) w in
    mkResult w [] (Returned n err)
  | SourceOwnedBuffers =>
    match Cast_ThreadSafeReader reader with
    | Some owner => CopyExtendedWithSrcBuffer fuel writer owner w
    | None => mkResult w [] (Panicked "no such path")
    end
  | PooledBuffers => CopyExtendedWithPool fuel writer reader w
  | ReusableBuffer =>
    let mtu := CalculateMTU (ext_reader reader) (ext_writer writer) in
    let headroom :=
      CalculateFrontHeadroom (ext_writer writer) + CalculateRearHeadroom (ext_writer writer) in
    let size := if 0 <? mtu then int64 (mtu + headroom) else BufferSize in
    CopyExtendedBuffer fuel writer reader (NewSize size) w
  end.

(** Headroom the model takes as sane: no sink asks for a negative one or
    for 2^62 bytes. *)
Definition headroom_sane : Prop :=
  forall x, 0 <= CalculateFrontHeadroom x < 2 ^ 62 /\ 0 <= CalculateRearHeadroom x < 2 ^ 62.

(** C8.  With non-nil endpoints [Copy] takes the path the specification
    selects, the first that matches in its order; and the source goes to
    the sink's [ReadFrom] inside [readOnlyReader] exactly when that path
    is the sink's pull, the sink is a [*net.TCPConn] and the unwrapped
    source is none of [*net.TCPConn], [*net.UnixConn], [*os.File]. *)
Theorem Copy_selects_path fuel dst src w :
  headroom_sane ->
  Copy fuel (Some dst) (Some src) w = followPath fuel (selectPath dst src) dst src w /\
  (selectPath dst src = SinkPull true <->
   is_WriterTo (UnwrapReader src) = false /\
   is_ReaderFrom (UnwrapWriter dst) = true /\
   dynType_Writer (UnwrapWriter dst) = TCPConn /\
   dynType_Reader (UnwrapReader src) <> TCPConn /\
   dynType_Reader (UnwrapReader src) <> UnixConn /\
   dynType_Reader (UnwrapReader src) <> OSFile).
Proof.
  intros Hsane. unfold Copy, selectPath, followPath. cbv zeta.
  set (source := UnwrapReader src). set (sink := UnwrapWriter dst).
  destruct (is_WriterTo source) eqn:HWT.
  { split; [reflexivity|]. split; [discriminate|]. intros (Hc & _). discriminate. }
  destruct (is_ReaderFrom sink) eqn:HRF.
  { split.
    - unfold needReadFromWrapper.
      destruct (dynType_Writer sink), (dynType_Reader source); reflexivity.
    - destruct (dynType_Writer sink), (dynType_Reader source); cbn;
        split; try discriminate; try (intros (_ & _ & ? & ? & ? & ?); congruence).
      intros _. repeat split; discriminate. }
  split; [|split; [intros; repeat case_match; discriminate|intros (_ & Hc & _); discriminate]].
  unfold CopyExtended. cbv zeta.
  set (reader := NewExtendedReader source). set (writer := NewExtendedWriter sink).
  destruct (Hsane (ext_writer writer)) as [Hf Hr].
  set (f := CalculateFrontHeadroom (ext_writer writer)) in *.
  set (r := CalculateRearHeadroom (ext_writer writer)) in *.
  assert (int64 (f + r) = f + r) as Hhead by (apply int64_small; lia).
  rewrite Hhead.
  destruct (Cast_ThreadSafeReader reader) as [owner|] eqn:HC.
  - rewrite bool_decide_eq_true_2 by eauto. cbn [andb].
    destruct (Z.eqb_spec (f + r) 0) as [Hz|Hz].
    + assert (f = 0) as -> by lia. assert (r = 0) as -> by lia. reflexivity.
    + destruct (Z.eqb_spec f 0) as [Hf0|Hf0], (Z.eqb_spec r 0) as [Hr0|Hr0];
        try lia; cbn [andb]; destruct (IsUnsafeWriter _); reflexivity.
  - rewrite bool_decide_eq_false_2 by (intros [? Hs]; discriminate). cbn [andb].
    destruct (IsUnsafeWriter _); reflexivity.
Qed.

End Claims.
End BufioFacts.

(** ** The service on sample collaborators *)
Module Sample.
Import Shadowaead ReplayFacts ShadowaeadFacts.

(** Collaborators whose ciphers leave the bytes as they are: an AEAD seals
    by appending a tag of sixteen [xff], addresses are two bytes. *)
#[local] Instance plain : Collaborators := {|
  AddrPort := Z;
  KeySaltSize := 32;
  PacketNonceSize := 24;
  HeaderTypeClient := x00;
  HeaderTypeServer := x01;
  StackBufferSize := 2048;
  Blake3DeriveKey := fun key salt n => take (Z.to_nat n) (salt ++ key);
  aead_NonceSize := fun c =>
    match aead_new c with newXChacha20Poly1305 => 24%nat | _ => 12%nat end;
  aead_Overhead := fun _ => 16%nat;
  aead_Open := fun _ _ ct =>
    let n := (length ct - 16)%nat in
    if bool_decide (drop n ct = replicate 16 xff) then Some (take n ct) else None;
  aead_Seal := fun _ _ pt => pt ++ replicate 16 xff;
  block_Decrypt := fun _ b => b;
  block_Encrypt := fun _ b => b;
  ReadAddrPort := fun b =>
    if (length b <? 2)%nat then inl (ErrCollab 1) else inr (be_uint (take 2 b), drop 2 b);
  WriteAddrPort := fun a => inr (put_uint 2 a);
  shadowaead_NewReader := fun _ conn => (conn, EOF)
|}.

Definition key : bytes := replicate 32 x2a.
Definition rng : nat -> byte := fun _ => x07.

(** A service of the split suite and one of the unified suite. *)
Definition aesService : Service :=
  default (mkService "" rng 0 0 None None None None [] [] 0 ∅ [])
    (NewService "2022-blake3-aes-128-gcm" key rng 300).1.
Definition chachaService : Service :=
  default (mkService "" rng 0 0 None None None None [] [] 0 ∅ [])
    (NewService "2022-blake3-chacha20-poly1305" key rng 300).1.

(** The request a client datagram carries after its ids. *)
Definition request (epoch : Z) (destination : Z) (payload : bytes) : bytes :=
  [x00] ++ put_uint 8 epoch ++ put_uint 2 0 ++ put_uint 2 destination ++ payload.

(** A client datagram of the split suite. *)
Definition splitDatagram (sid pid epoch : Z) (payload : bytes) : bytes :=
  put_uint 8 sid ++ put_uint 8 pid ++ request epoch 443 payload ++ replicate 16 xff.

Definition first : Datagram := mkDatagram 1000 1111 (splitDatagram 5 1 1000 [x68; x69]).
Definition replayed : Datagram := mkDatagram 1001 2222 (splitDatagram 5 1 1000 [x68; x69]).
Definition early : Datagram := mkDatagram 1000 1111 (splitDatagram 5 1 1001 [x68; x69]).

Definition after (s : Service) (p : Datagram) : Service :=
  match receive s p with Done (s', _) => s' | Panic _ => s end.

Example first_accepted : receive aesService first = Done (after aesService first, None).
Proof. vm_compute. reflexivity. Qed.

(** C2, the claim as stated fails: the datagram [first] is accepted from
    1111; replayed from 2222 it is refused with [ErrPacketIdNotUnique],
    and the session's [remoteAddr] has changed from 1111 to 2222. *)
Lemma replayed_datagram_changes_remoteAddr :
  let s1 := after aesService first in
  let s2 := after s1 replayed in
  receive aesService first = Done (s1, None) /\
  receive s1 replayed = Done (s2, Some ErrPacketIdNotUnique) /\
  (remoteAddr <$> sessions s1 !! 5) = Some (Some 1111) /\
  (remoteAddr <$> sessions s2 !! 5) = Some (Some 2222).
Proof. cbv zeta. split; [|split; [|split]]; vm_compute; reflexivity. Qed.

Lemma replayed_datagram_refused_witness :
  exists x,
    sessions (after aesService first) !! 5 = Some x /\
    receive (after aesService first) replayed =
    Done (store 5 (set_remoteAddr (Some (dg_source replayed)) x) (after aesService first),
          Some ErrPacketIdNotUnique).
Proof.
  apply (replayed_datagram_refused "2022-blake3-aes-128-gcm" key rng 300 aesService []
           aesService first (after aesService first) [] (after aesService first) replayed 5 1);
    vm_compute; reflexivity.
Defined.

Lemma timestamp_window_differs_witness :
  (badTimestampConn 1000 1001 = false <-> -30 <= 1000 - 1001 <= 30) /\
  (badTimestampPacket 1000 1001 = false <-> 0 <= 1000 - 1001 <= 30).
Proof. apply (timestamp_window_differs 1000 1001); lia. Defined.

(** A handshake of the stream side. *)
Definition handshake (epoch : Z) : bytes :=
  replicate 32 x11 ++ [x00] ++ put_uint 8 epoch ++ put_uint 2 443 ++ put_uint 2 0.

(** C1: the datagram path refuses a timestamp one second ahead of the
    server's clock, the stream path accepts the same one. *)
Lemma early_timestamp_refused_by_datagram_path_only :
  receive aesService early = Done (set_rngPos 8 aesService, Some ErrBadTimestamp) /\
  NewConnection aesService 1000 (handshake 1001) =
  Done (set_replayFilter [replicate 32 x11] aesService,
        Accepted 443 (replicate 32 x11) (mkReader [] EOF)).
Proof. split; vm_compute; reflexivity. Qed.

Lemma failed_datagram_leaves_table_witness :
  (forall k, sessions aesService !! k = None ->
             sessions (set_rngPos 8 aesService) !! k = None) /\
  (forall k, is_Some (sessions aesService !! k) ->
             is_Some (sessions (set_rngPos 8 aesService) !! k)) /\
  (forall sid pid, packetIds aesService (dg_data early) = Some (sid, pid) ->
     sessions aesService !! sid = None ->
     sessions (set_rngPos 8 aesService) = sessions aesService).
Proof.
  apply (failed_datagram_leaves_table aesService 1000 1111 (dg_data early)
           (set_rngPos 8 aesService) ErrBadTimestamp).
  vm_compute. reflexivity.
Defined.

Definition freshSession : serverUDPSession :=
  match newUDPSession aesService with
  | Done (x, _) => x
  | Panic _ => mkSession 0 0 None 0 None None Replay.zero
  end.

Lemma nextPacketId_counts_from_zero_witness :
  nextPacketIds 3 freshSession = map Z.of_nat (seq 0 3) /\
  (Replay.ValidateCounter Replay.zero 0 MaxUint64).1 = true.
Proof.
  apply (nextPacketId_counts_from_zero aesService freshSession (set_rngPos 8 aesService) 3).
  - vm_compute. reflexivity.
  - vm_compute. discriminate.
Defined.

Lemma WritePacket_unified_witness :
  let header := unifiedHeader chachaService freshSession 1000 (put_uint 2 443) [x68; x69] in
  (length [x68; x69] <> aead_NonceSize (mkAEAD newXChacha20Poly1305 key) ->
   WritePacket chachaService freshSession 1000 [x68; x69] 443 =
   Panic "incorrect nonce length") /\
  (length [x68; x69] = aead_NonceSize (mkAEAD newXChacha20Poly1305 key) ->
   WritePacket chachaService freshSession 1000 [x68; x69] 443 =
   Done ((rng_read PacketNonceSize chachaService).2, (nextPacketId freshSession).2,
         inr (take (length [x68; x69]) header
              ++ aead_Seal (mkAEAD newXChacha20Poly1305 key)
                   (take (length [x68; x69]) header) (drop (length [x68; x69]) header)))).
Proof.
  apply (WritePacket_unified_seals_at_payload_length chachaService freshSession 1000
           [x68; x69] 443 (mkAEAD newXChacha20Poly1305 key) (put_uint 2 443)).
  - vm_compute. reflexivity.
  - vm_compute. reflexivity.
  - vm_compute. repeat constructor.
Defined.

(** C3: a payload of two bytes in the unified suite. *)
Lemma WritePacket_unified_two_bytes_panics :
  WritePacket chachaService freshSession 1000 [x68; x69] 443 =
  Panic "incorrect nonce length".
Proof. vm_compute. reflexivity. Qed.

Lemma NewService_checks_only_the_key_witness :
  exists s,
    NewService "none" key rng 300 = (Some s, None) /\
    constructor s = None /\ blockConstructor s = None /\ keyLength s = 0 /\
    udpCipher s = None /\ udpBlockCipher s = None /\
    forall now conn salt rest,
      io_ReadFull KeySaltSize conn = inr (salt, rest) ->
      NewConnection s now conn = Panic "nil constructor".
Proof.
  apply (proj2 (proj2 (NewService_checks_only_the_key "none" key rng 300)));
    [reflexivity|discriminate..].
Defined.

End Sample.

(** ** The copy engine on scripted endpoints *)
Module SampleCopy.
Import Bufio BufioFacts.

(** Endpoints over a script: the world is the chunks still to be read and
    the chunks written so far.  Every sink asks for 2 bytes in front and 3
    behind; an [io.Reader] or [io.Writer] is known by its dynamic type. *)
#[local] Instance scripted : Interfaces := {|
  World := list bytes * list bytes;
  io_Reader := GoType;
  io_Writer := GoType;
  ExtendedReader := unit;
  ExtendedWriter := unit;
  ThreadSafeReader := unit;
  PacketReader := unit;
  PacketWriter := unit;
  ThreadSafePacketReader := unit;
  Socksaddr := Z
|}.

Definition readChunk (b : Buffer) (w : list bytes * list bytes)
  : (list bytes * list bytes) * (error + Window) :=
  match w.1 with
  | [] => (w, inl EOF)
  | chunk :: rest =>
    if start b + Z.of_nat (length chunk) <=? capacity b
    then ((rest, w.2), inr (start b, chunk))
    else (w, inl ErrShortBuffer)
  end.

Definition ownChunk (w : list bytes * list bytes)
  : (list bytes * list bytes) * (error + Buffer) :=
  match w.1 with
  | [] => (w, inl EOF)
  | chunk :: rest => ((rest, w.2), inr (mkBuffer (Z.of_nat (length chunk)) 0 chunk))
  end.

#[local] Instance wire : Network := {|
  BufferSize := 64;
  UDPBufferSize := 64;
  Slice_cap := fun size => size;
  UnwrapReader := fun r => r;
  UnwrapWriter := fun w => w;
  dynType_Reader := fun r => r;
  dynType_Writer := fun w => w;
  is_WriterTo := fun _ => false;
  WriteTo := fun _ _ w => (w, (0, None));
  is_ReaderFrom := fun t => match t with TCPConn => true | _ => false end;
  ReadFrom := fun _ _ w => (([], w.2 ++ w.1), (0, None));
  NewExtendedReader := fun _ => tt;
  NewExtendedWriter := fun _ => tt;
  Cast_ThreadSafeReader := fun _ => None;
  Cast_ThreadSafePacketReader := fun _ => None;
  CalculateFrontHeadroom := fun _ => 2;
  CalculateRearHeadroom := fun _ => 3;
  CalculateMTU := fun _ _ => 0;
  IsUnsafeWriter := fun _ => false;
  HandshakeFailure := fun _ err => Cause err "handshake failure";
  ReadBuffer := fun _ => readChunk;
  WriteBuffer := fun _ b w => ((w.1, w.2 ++ [data b]), None);
  ReadBufferThreadSafe := fun _ => ownChunk;
  ReadPacket := fun _ b w =>
    match readChunk b w with
    | (w, inl err) => (w, inl err)
    | (w, inr window) => (w, inr (window, 443))
    end;
  WritePacket := fun _ b _ w => ((w.1, w.2 ++ [data b]), None);
  ReadPacketThreadSafe := fun _ w =>
    match ownChunk w with
    | (w, inl err) => (w, inl err)
    | (w, inr b) => (w, inr (b, 443))
    end
|}.

Definition hi : bytes := [x68; x69].
Definition two : World := ([hi; hi], []).
Definition drained : World := ([], [hi; hi]).
Definition wrapped : io_Reader := OtherType.
Definition tcp : io_Writer := TCPConn.
Definition ext_w : ExtendedWriter := tt.
Definition ext_r : ExtendedReader := tt.

(** C5, the claim as stated fails for the datagram variant: with both
    endpoints nil [CopyPacket] does not return an error, it panics. *)
Lemma CopyPacket_nil_panics :
  CopyPacket 1 None None two = mkResult two [] (Panicked "nil pointer dereference").
Proof. vm_compute. reflexivity. Qed.

Lemma Copy_nil_endpoint_witness :
  Copy 1 None (Some wrapped) two =
  mkResult two [] (Returned 0 (Some (ErrNew "nil writer"))).
Proof.
  apply (proj2 (Copy_nil_endpoint 1 None (Some wrapped) two)); [discriminate|reflexivity].
Defined.



(** The buffers of such a run: two bytes at offset 2 of 64, three or more
    behind. *)
Example CopyExtended_two_chunks :
  CopyExtended 3 ext_w ext_r two =
  mkResult drained [mkBuffer 64 2 hi; mkBuffer 64 2 hi] (Returned 4 (Some EOF)).
Proof. vm_compute. reflexivity. Qed.

Lemma headroom_sane_wire : headroom_sane.
Proof. intros x. cbn. lia. Qed.

Lemma Copy_selects_path_witness :
  Copy 3 (Some tcp) (Some wrapped) two =
  followPath 3 (selectPath tcp wrapped) tcp wrapped two /\
  (selectPath tcp wrapped = SinkPull true <->
   is_WriterTo (UnwrapReader wrapped) = false /\
   is_ReaderFrom (UnwrapWriter tcp) = true /\
   dynType_Writer (UnwrapWriter tcp) = TCPConn /\
   dynType_Reader (UnwrapReader wrapped) <> TCPConn /\
   dynType_Reader (UnwrapReader wrapped) <> UnixConn /\
   dynType_Reader (UnwrapReader wrapped) <> OSFile).
Proof. apply (Copy_selects_path 3 tcp wrapped two headroom_sane_wire). Defined.



(** Nothing relayed: the error of the first read comes back wrapped. *)
Example CopyExtended_empty_source :
  CopyExtended 3 ext_w ext_r (([], []) : World) =
  mkResult (([], []) : World) [] (Returned 0 (Some (Cause EOF "handshake failure"))).
Proof. vm_compute. reflexivity. Qed.

End SampleCopy.

(** * Further properties of the code *)

(** ** The service: sessions, datagrams and handshakes *)
Module ShadowaeadMore.
Import Shadowaead ReplayFacts ShadowaeadFacts.

(** *** Big-endian integers *)

Lemma byte_to_Z_range b : 0 <= byte_to_Z b < 256.
Proof.
  unfold byte_to_Z. pose proof (Byte.to_N_bounded b). lia.
Qed.

Lemma byte_to_of_Z x : byte_to_Z (byte_of_Z x) = x mod 256.
Proof.
  unfold byte_to_Z, byte_of_Z.
  pose proof (Z.mod_pos_bound x 256 ltac:(lia)) as Hx.
  pose proof (Byte.to_of_N_option_map (Z.to_N (x mod 256))) as Hmap.
  destruct (N.leb_spec (Z.to_N (x mod 256)) 255) as [_|Hbig]; [|lia].
  destruct (Byte.of_N (Z.to_N (x mod 256))) as [b|]; [|discriminate].
  injection Hmap as ->. lia.
Qed.

Lemma byte_of_to_Z b : byte_of_Z (byte_to_Z b) = b.
Proof.
  unfold byte_of_Z. rewrite Z.mod_small by apply byte_to_Z_range.
  unfold byte_to_Z. rewrite N2Z.id, Byte.of_to_N. reflexivity.
Qed.

Lemma be_uint_snoc bs b : be_uint (bs ++ [b]) = be_uint bs * 256 + byte_to_Z b.
Proof. unfold be_uint. rewrite fold_left_app. reflexivity. Qed.

Lemma be_uint_range bs : 0 <= be_uint bs < 256 ^ Z.of_nat (length bs).
Proof.
  induction bs as [|b bs IH] using rev_ind; [cbn; lia|].
  rewrite be_uint_snoc, length_app, Nat2Z.inj_add, Z.pow_add_r by lia.
  pose proof (byte_to_Z_range b). cbn [length]. change (256 ^ Z.of_nat 1) with 256. nia.
Qed.

Lemma be_uint_put_uint n x : be_uint (put_uint n x) = x mod 256 ^ Z.of_nat n.
Proof.
  revert x. induction n as [|n IH]; intros x.
  - cbn. now rewrite Z.mod_1_r.
  - cbn [put_uint]. rewrite be_uint_snoc, IH, byte_to_of_Z.
    rewrite Nat2Z.inj_succ, Z.pow_succ_r by lia.
    rewrite (Z.rem_mul_r x 256 (256 ^ Z.of_nat n)) by lia. lia.
Qed.

Lemma put_uint_be_uint bs : put_uint (length bs) (be_uint bs) = bs.
Proof.
  induction bs as [|b bs IH] using rev_ind; [reflexivity|].
  rewrite length_app, Nat.add_1_r, be_uint_snoc. cbn [put_uint].
  pose proof (byte_to_Z_range b) as Hb.
  rewrite Z.div_add_l, Z.div_small, Z.add_0_r, IH by lia.
  f_equal. f_equal.
  rewrite <- (byte_of_to_Z b) at 2. unfold byte_of_Z.
  rewrite Z.add_comm, Z.mod_add by lia. reflexivity.
Qed.

(** [binary.Read] gives back what [binary.Write] wrote. *)
Lemma binary_Read_put_uint n v rest :
  (0 < n)%nat ->
  binary_Read n (put_uint n v ++ rest) = inr (v mod 256 ^ Z.of_nat n, rest).
Proof.
  intros Hn. unfold binary_Read.
  destruct (put_uint n v ++ rest) as [|h t] eqn:Hp.
  - apply (f_equal length) in Hp. rewrite length_app, length_put_uint in Hp. cbn in Hp. lia.
  - rewrite <- Hp.
    destruct (Nat.ltb_spec (length (put_uint n v ++ rest)) n) as [Hs|_].
    { rewrite length_app, length_put_uint in Hs. lia. }
    rewrite take_app_length', drop_app_length' by (now rewrite length_put_uint).
    rewrite be_uint_put_uint. reflexivity.
Qed.

Lemma binary_Read_8_bytes buffer v rest :
  binary_Read 8 buffer = inr (v, rest) -> take 8 buffer = put_uint 8 v.
Proof.
  unfold binary_Read. destruct buffer as [|b0 buffer]; [discriminate|].
  destruct (Nat.ltb_spec (length (b0 :: buffer)) 8) as [|Hlen]; [discriminate|].
  intros [= <- _].
  rewrite <- (put_uint_be_uint (take 8 (b0 :: buffer))) at 1.
  rewrite length_take_le by exact Hlen. reflexivity.
Qed.

(** A window that has seen nothing accepts every counter below the limit. *)
Lemma ValidateCounter_zero_accepts pid lim :
  0 <= pid < lim -> (Replay.ValidateCounter Replay.zero pid lim).1 = true.
Proof.
  intros Hpid. rewrite ValidateCounter_unfold.
  destruct (Z.leb_spec lim pid) as [|_]; [lia|].
  assert (forall p, Z.testbit 0 p = false) as Hz by apply Z.bits_0.
  cbn [Replay.last Replay.ring Replay.zero].
  destruct (0 <? pid).
  - cbv zeta. cbn [fst].
    match goal with |- context [Replay.clear ?r ?f ?n !!! ?i] =>
      destruct (clear_cases r f n i) as [->|[-> _]] end.
    + rewrite length_replicate. apply slot_lt.
    + now rewrite Hz.
    + rewrite lookup_total_replicate_2 by apply slot_lt. now rewrite Hz.
  - destruct (Z.ltb_spec 8128 (0 - pid)) as [|_]; [lia|].
    cbv zeta. cbn [fst]. rewrite lookup_total_replicate_2 by apply slot_lt. now rewrite Hz.
Qed.

Section More.
Context `{Collaborators}.

(** *** [newUDPSession] *)

(** The ids and ciphers of a new session. *)
Lemma newUDPSession_ciphers m x m' :
  newUDPSession m = Done (x, m') ->
  0 <= sessionId x < 2 ^ 64 /\ remoteSessionId x = 0 /\ remoteCipher x = None /\
  match udpCipher m with
  | Some _ => cipher x = None
  | None =>
    exists new, constructor m = Some new /\
      cipher x =
        Some (mkAEAD new (Blake3DeriveKey (psk m) (put_uint 8 (sessionId x)) (keyLength m)))
  end.
Proof.
  unfold newUDPSession. cbv zeta.
  destruct (rng_read 8 m) as [rnd m1] eqn:Hr.
  assert (0 <= be_uint rnd < 2 ^ 64) as Hrange.
  { pose proof (be_uint_range rnd) as Hb. pose proof (length_rng_read 8 m) as Hl.
    rewrite Hr in Hl. cbn [fst] in Hl. rewrite Hl in Hb. exact Hb. }
  assert (udpCipher m1 = udpCipher m /\ constructor m1 = constructor m /\
          psk m1 = psk m /\ keyLength m1 = keyLength m) as (Hu & Hc & Hp & Hk).
  { unfold rng_read in Hr. injection Hr as _ <-. repeat split. }
  cbn [sessionId packetId set_packetId remoteSessionId remoteAddr remoteCipher filter].
  rewrite Hu, Hc, Hp, Hk.
  destruct (udpCipher m) as [c|].
  - intros [= <- <-]. cbn [sessionId remoteSessionId remoteCipher cipher set_packetId].
    repeat split; lia.
  - destruct (constructor m) as [new|]; [|discriminate].
    intros [= <- <-]. cbn [sessionId remoteSessionId remoteCipher cipher].
    repeat split; try lia. exists new. split; reflexivity.
Qed.

(** X1.  A session made by [newUDPSession] takes its id from the next
    eight bytes of the random source, read big endian, and nothing else of
    it: the id lies below 2^64, [packetId] is 2^64-1 (so that the first
    [nextPacketId] gives 0), the remote id, address and cipher are unset,
    and the replay window is empty.  In the unified suite the session has
    no cipher of its own; in the split suite its cipher is the service's
    constructor on the key derived from the pre-shared key and those same
    eight bytes. *)
Theorem newUDPSession_fresh m x m' :
  newUDPSession m = Done (x, m') ->
  let rnd := (rng_read 8 m).1 in
  m' = (rng_read 8 m).2 /\
  sessionId x = be_uint rnd /\ 0 <= sessionId x < 2 ^ 64 /\
  packetId x = MaxUint64 /\ remoteSessionId x = 0 /\ remoteAddr x = None /\
  remoteCipher x = None /\ filter x = Replay.zero /\
  match udpCipher m with
  | Some _ => cipher x = None
  | None =>
    exists new, constructor m = Some new /\
      cipher x = Some (mkAEAD new (Blake3DeriveKey (psk m) rnd (keyLength m)))
  end.
Proof.
  unfold newUDPSession. cbv zeta.
  destruct (rng_read 8 m) as [rnd m1] eqn:Hr. cbn [fst snd].
  assert (length rnd = 8%nat) as Hlen.
  { pose proof (length_rng_read 8 m) as Hl. rewrite Hr in Hl. exact Hl. }
  assert (0 <= be_uint rnd < 2 ^ 64) as Hrange.
  { pose proof (be_uint_range rnd) as Hb. rewrite Hlen in Hb. exact Hb. }
  assert (m1 = (rng_read 8 m).2) as Hm1 by now rewrite Hr.
  assert (udpCipher m1 = udpCipher m /\ constructor m1 = constructor m /\
          psk m1 = psk m /\ keyLength m1 = keyLength m) as (Hu & Hc & Hp & Hk).
  { rewrite Hm1. cbn. repeat split. }
  cbn [sessionId packetId set_packetId remoteSessionId remoteAddr remoteCipher filter].
  rewrite Hu, Hc, Hp, Hk.
  pose proof (put_uint_be_uint rnd) as Hrt. rewrite Hlen in Hrt. rewrite ?Hrt.
  destruct (udpCipher m) as [c|].
  - intros [= <- <-]. cbn. repeat split; lia.
  - destruct (constructor m) as [new|]; [|discriminate].
    intros [= <- <-]. cbn. repeat split; try lia.
    exists new. split; reflexivity.
Qed.

(** *** [WritePacket] *)



(** X3.  Every call of [WritePacket] that returns - with a packet or with
    an error of the address codec or of the buffer - has used up one
    packet id of the session, and in the unified suite one nonce of the
    random source; it changes nothing else of the session or the
    service. *)
Theorem WritePacket_uses_packet_id w session now buffer destination w' session' r :
  WritePacket w session now buffer destination = Done (w', session', r) ->
  session' = set_packetId (uint64 (packetId session + 1)) session /\
  w' = match udpCipher w with
       | Some _ => set_rngPos (rngPos w + PacketNonceSize)%nat w
       | None => w
       end.
Proof.
  unfold WritePacket. cbn [nextPacketId rng_read].
  destruct (udpCipher w) as [c|] eqn:Hu; cbn [udpCipher set_rngPos];
    repeat case_match; intros; simplify_eq; split; reflexivity.
Qed.

(** X4.  The header of a packet written in the split suite reads back:
    with a block cipher whose decryption undoes its encryption on sixteen
    bytes, the first lines of [NewPacket] find in the packet [WritePacket]
    produced the session id of the writing session and the packet id the
    call used. *)
Theorem WritePacket_ids_read_back w session now buffer destination b packet s' x' :
  udpCipher w = None ->
  udpBlockCipher w = Some b ->
  0 <= sessionId session < 2 ^ 64 ->
  (forall block, length block = 16%nat ->
     length (block_Encrypt b block) = 16%nat /\
     block_Decrypt b (block_Encrypt b block) = block) ->
  WritePacket w session now buffer destination = Done (s', x', inr packet) ->
  packetIds w packet = Some (sessionId session, uint64 (packetId session + 1)).
Proof.
  intros Hu Hb Hsid Hblock. unfold WritePacket. rewrite Hu. cbn [nextPacketId].
  set (id := uint64 (packetId session + 1)).
  cbn [sessionId remoteSessionId set_packetId cipher app].
  remember (put_uint 8) as put8 eqn:Hput8. remember (put_uint 2) as put2 eqn:Hput2.
  destruct (WriteAddrPort destination) as [err|addr]; [discriminate|].
  destruct (Buffer_Write _ buffer) as [err|header] eqn:Hw; [discriminate|].
  rewrite Hu, Hb.
  destruct (cipher session) as [c|]; [|discriminate].
  destruct (Seal c _ _) as [sealed|msg]; [|discriminate].
  intros Hdone. injection Hdone as _ _ Hpacket.
  unfold Buffer_Write in Hw. destruct (_ <=? _)%nat; [|discriminate].
  injection Hw as Hheader.
  set (block := put_uint 8 (sessionId session) ++ put_uint 8 id).
  assert (length block = 16%nat) as Hlb.
  { subst block. rewrite length_app, !length_put_uint. reflexivity. }
  assert (exists rest, header = block ++ rest) as [rest ->].
  { rewrite <- Hheader. subst block put8. repeat rewrite <- app_assoc. eauto. }
  clear Hheader. subst packet.
  change aes_BlockSize with 16%nat.
  rewrite !take_app_length' by (symmetry; exact Hlb).
  destruct (Hblock block Hlb) as [Hle Hde].
  set (packet := inplace (block_Encrypt b block) _).
  assert (exists tail, packet = block_Encrypt b block ++ tail) as [tail ->].
  { subst packet. unfold inplace. eauto. }
  unfold packetIds, openHeader. rewrite Hu, Hb.
  change aes_BlockSize with 16%nat.
  destruct (Nat.ltb_spec (length (block_Encrypt b block ++ tail)) 16) as [Hshort|_].
  { rewrite length_app in Hshort. lia. }
  rewrite !take_app_length' by (symmetry; exact Hle).
  rewrite Hde. unfold inplace. rewrite Hlb, <- Hle, drop_app_length.
  subst block. rewrite <- app_assoc.
  rewrite binary_Read_put_uint by lia. rewrite binary_Read_put_uint by lia.
  change (256 ^ Z.of_nat 8) with (2 ^ 64). f_equal. f_equal.
  - apply Z.mod_small. exact Hsid.
  - subst id. unfold uint64. apply Z.mod_mod. lia.
Qed.

(** *** [NewPacket] *)

(** The session [NewPacket] makes of a new one, lines 237-243. *)
Definition adopted (s : Service) (sid : Z) (x : serverUDPSession) : serverUDPSession :=
  match udpCipher s, constructor s with
  | None, Some new =>
    set_remoteCipher
      (Some (mkAEAD new (Blake3DeriveKey (psk s) (put_uint 8 sid) (keyLength s))))
      (set_remoteSessionId sid x)
  | _, _ => set_remoteSessionId sid x
  end.

(** The entry a datagram leaves for its session: the session found, or
    the new one adopted, with the source address and the replay window
    after the packet id. *)
Definition entryAfter (s : Service) (sid pid : Z) (source : AddrPort)
    (x : serverUDPSession) : serverUDPSession :=
  let x := match sessions s !! sid with Some _ => x | None => adopted s sid x end in
  set_filter (Replay.ValidateCounter (filter x) pid MaxUint64).2
    (set_remoteAddr (Some source) x).

(** The service once the session was looked up: the random bytes of a new
    session are drawn. *)
Definition lookedUp (s : Service) (sid : Z) : Service :=
  match sessions s !! sid with
  | Some _ => s
  | None => set_rngPos (rngPos s + 8)%nat s
  end.

Lemma openHeader_header s buffer hdr rest :
  openHeader s buffer = Done (inr (hdr, rest)) ->
  match udpCipher s with
  | Some _ => hdr = None
  | None => hdr = Some (take 16 rest)
  end.
Proof.
  unfold openHeader. destruct (udpCipher s) as [c|].
  - repeat case_match; intros; simplify_eq; reflexivity.
  - repeat case_match; intros; simplify_eq; reflexivity.
Qed.

(** The service after any call of [NewPacket] that returns. *)
Lemma NewPacket_cases s now source buffer s' r :
  NewPacket s now source buffer = Done (s', r) ->
  match packetIds s buffer with
  | None => s' = s /\ r <> None
  | Some (sid, pid) =>
    exists x,
      match sessions s !! sid with
      | Some y => x = y
      | None => newUDPSession s = Done (x, lookedUp s sid)
      end /\
      let entry := entryAfter s sid pid source x in
      match r with
      | Some err =>
        s' = match sessions s !! sid with
             | Some _ => store sid entry s
             | None => lookedUp s sid
             end
      | None =>
        exists destination payload,
          s' = set_delivered
                 (mkDelivery sid source destination payload :: delivered s)
                 (store sid entry (lookedUp s sid))
      end
  end.
Proof.
  unfold NewPacket, packetIds.
  destruct (openHeader s buffer) as [[err|[hdr b0]]|] eqn:HO; [| |discriminate].
  { intros [= <- <-]. split; congruence. }
  destruct (binary_Read 8 b0) as [err|[sid b1]] eqn:HR1.
  { intros [= <- <-]. split; congruence. }
  destruct (binary_Read 8 b1) as [err|[pid b2]] eqn:HR2.
  { intros [= <- <-]. split; congruence. }
  pose proof (openHeader_header _ _ _ _ HO) as Hhdr.
  pose proof (binary_Read_8_bytes _ _ _ HR1) as Hsid.
  unfold LoadOrStore, entryAfter, lookedUp, adopted.
  destruct (sessions s !! sid) as [y|] eqn:Hy.
  - cbn [negb]. destruct (process _ _ _ _ _) as [[x2 res]|] eqn:HP; [|discriminate].
    apply process_session in HP as [-> _]. cbn [filter set_remoteAddr].
    intros HD. exists y. split; [reflexivity|].
    destruct res as [err|[dest payload]]; injection HD as <- <-.
    + reflexivity.
    + eexists _, _. reflexivity.
  - destruct (newUDPSession s) as [[x0 m]|] eqn:HN; [|discriminate].
    pose proof (newUDPSession_inv _ _ _ HN) as (-> & _).
    cbn [negb udpCipher constructor psk keyLength set_sessions set_rngPos].
    assert (forall x1,
              match hdr with
              | Some packetHeader =>
                match constructor s with
                | Some new =>
                  Done (set_remoteCipher
                          (Some (mkAEAD new (Blake3DeriveKey (psk s) (take 8 packetHeader)
                                               (keyLength s))))
                          (set_remoteSessionId sid x0))
                | None => Panic "nil constructor"
                end
              | None => Done (set_remoteSessionId sid x0)
              end = Done x1 ->
              x1 = match udpCipher s, constructor s with
                   | None, Some new =>
                     set_remoteCipher
                       (Some (mkAEAD new (Blake3DeriveKey (psk s) (put_uint 8 sid)
                                            (keyLength s))))
                       (set_remoteSessionId sid x0)
                   | _, _ => set_remoteSessionId sid x0
                   end) as Hadopt.
    { intros x1. destruct (udpCipher s) as [c|]; subst hdr.
      - intros [= <-]. reflexivity.
      - rewrite take_take, <- Hsid. cbn [Nat.min].
        destruct (constructor s); [intros [= <-]; reflexivity|discriminate]. }
    match goal with |- match ?c with _ => _ end = _ -> _ => destruct c as [x1|] eqn:Hc end;
      [|discriminate].
    pose proof (Hadopt x1 eq_refl) as Hx1. clear Hadopt.
    destruct (process _ _ _ _ _) as [[x2 res]|] eqn:HP; [|discriminate].
    apply process_session in HP as [-> _]. cbn [filter set_remoteAddr].
    intros HD. exists x0. split; [reflexivity|]. rewrite <- Hx1. cbv zeta.
    destruct res as [err|[dest payload]]; injection HD as <- <-.
    + unfold store. cbn.
      rewrite delete_insert_eq, delete_insert_eq, delete_id by exact Hy.
      now destruct s.
    + eexists _, _. unfold store. cbn. rewrite insert_insert_eq. reflexivity.
Qed.

(** What [NewService] sets and no call changes. *)
Definition same_config (s s' : Service) : Prop :=
  name s' = name s /\ secureRNG s' = secureRNG s /\ keyLength s' = keyLength s /\
  constructor s' = constructor s /\ blockConstructor s' = blockConstructor s /\
  udpCipher s' = udpCipher s /\ udpBlockCipher s' = udpBlockCipher s /\
  psk s' = psk s /\ udpTimeout s' = udpTimeout s.

Lemma same_config_refl s : same_config s s.
Proof. repeat split. Qed.

Lemma NewPacket_same_config s now source buffer s' r :
  NewPacket s now source buffer = Done (s', r) -> same_config s s'.
Proof.
  intros HNP. pose proof (NewPacket_cases _ _ _ _ _ _ HNP) as Hc.
  destruct (packetIds s buffer) as [[sid pid]|].
  - destruct Hc as (x & _ & Hc). cbv zeta in Hc. unfold lookedUp in Hc.
    destruct r as [err|].
    + subst s'. destruct (sessions s !! sid); repeat split.
    + destruct Hc as (destination & payload & ->).
      destruct (sessions s !! sid); repeat split.
  - destruct Hc as [-> _]. apply same_config_refl.
Qed.

(** X5.  A call of [NewPacket] that returns leaves the configuration of
    the service and the salt filter of the stream side as they were, and
    has drawn eight random bytes exactly when the datagram named a session
    the table did not hold.  With an error nothing was delivered; without
    one exactly one packet was handed on, under the session id the
    datagram carries and from its source, and the table holds the session
    under that id with the source as its remote address. *)
Theorem NewPacket_delivers_once s now source buffer s' r :
  NewPacket s now source buffer = Done (s', r) ->
  same_config s s' /\ replayFilter s' = replayFilter s /\
  rngPos s' =
    match packetIds s buffer with
    | Some (sid, _) =>
      match sessions s !! sid with Some _ => rngPos s | None => (rngPos s + 8)%nat end
    | None => rngPos s
    end /\
  match r with
  | Some _ => delivered s' = delivered s
  | None =>
    exists sid pid destination payload x,
      packetIds s buffer = Some (sid, pid) /\
      delivered s' = mkDelivery sid source destination payload :: delivered s /\
      sessions s' !! sid = Some x /\ remoteAddr x = Some source
  end.
Proof.
  intros HNP. split; [exact (NewPacket_same_config _ _ _ _ _ _ HNP)|].
  pose proof (NewPacket_cases _ _ _ _ _ _ HNP) as Hc.
  destruct (packetIds s buffer) as [[sid pid]|] eqn:Hids.
  - destruct Hc as (x & _ & Hc). cbv zeta in Hc. unfold lookedUp in *.
    destruct r as [err|].
    + subst s'. destruct (sessions s !! sid); repeat split.
    + destruct Hc as (destination & payload & ->).
      split; [destruct (sessions s !! sid); reflexivity|].
      split; [destruct (sessions s !! sid); reflexivity|].
      exists sid, pid, destination, payload. eexists.
      split; [reflexivity|]. split; [destruct (sessions s !! sid); reflexivity|].
      split; [cbn; destruct (sessions s !! sid); cbn; apply lookup_insert_eq|].
      reflexivity.
  - destruct Hc as [-> Hr]. split; [reflexivity|].
    split; [reflexivity|]. destruct r; [reflexivity|contradiction].
Qed.

(** X6.  The packet id 2^64-1 is never accepted: whatever the session and
    its replay window, a datagram carrying it that [NewPacket] returns
    from is refused with [ErrPacketIdNotUnique] (the limit given to
    [ValidateCounter] is [math.MaxUint64], and a counter has to lie below
    the limit). *)
Theorem NewPacket_refuses_last_packet_id s now source buffer s' r sid :
  NewPacket s now source buffer = Done (s', r) ->
  packetIds s buffer = Some (sid, MaxUint64) ->
  r = Some ErrPacketIdNotUnique.
Proof.
  intros HNP Hids.
  destruct (NewPacket_inv _ _ _ _ _ _ HNP) as
    [(_ & Hnone & _)|(sid' & pid & session & loaded & s1 & entry & Hids' & _ & _ & _ & Hres)];
    [congruence|].
  rewrite Hids in Hids'. injection Hids' as <- <-.
  assert ((Replay.ValidateCounter (filter session) MaxUint64 MaxUint64).1 = false) as Hv.
  { unfold Replay.ValidateCounter. rewrite Z.leb_refl. reflexivity. }
  destruct Hres as [(_ & Hacc & _)|(err & -> & Herr & _)]; [congruence|].
  now rewrite (Herr Hv).
Qed.

(** *** The session table *)

(** The entry [x] stored under [k] is the session of the client session
    [k]: it carries [k] as its remote session id, a remote address and a
    session id of its own, and in the split suite its two ciphers are
    keyed by the two session ids (none in the unified suite). *)
Definition keyed (s : Service) (k : Z) (x : serverUDPSession) : Prop :=
  remoteSessionId x = k /\ is_Some (remoteAddr x) /\ 0 <= sessionId x < 2 ^ 64 /\
  match udpCipher s with
  | Some _ => cipher x = None /\ remoteCipher x = None
  | None =>
    exists new,
      constructor s = Some new /\
      cipher x =
        Some (mkAEAD new (Blake3DeriveKey (psk s) (put_uint 8 (sessionId x)) (keyLength s))) /\
      remoteCipher x =
        Some (mkAEAD new (Blake3DeriveKey (psk s) (put_uint 8 k) (keyLength s)))
  end.

Definition table_keyed (s : Service) : Prop :=
  forall k x, sessions s !! k = Some x -> keyed s k x.

Lemma keyed_config s s' k x : same_config s s' -> keyed s k x -> keyed s' k x.
Proof.
  intros (_ & _ & Hk & Hc & _ & Hu & _ & Hp & _). unfold keyed.
  rewrite Hk, Hc, Hu, Hp. exact id.
Qed.

Lemma keyed_entryAfter s sid pid source x :
  table_keyed s ->
  match sessions s !! sid with
  | Some y => x = y
  | None => newUDPSession s = Done (x, lookedUp s sid)
  end ->
  keyed s sid (entryAfter s sid pid source x).
Proof.
  intros Hok Hx. unfold entryAfter.
  destruct (sessions s !! sid) as [y|] eqn:Hy.
  - subst x. destruct (Hok _ _ Hy) as (Hr & _ & Hs & Hc).
    split; [exact Hr|]. split; [cbn; eauto|]. split; [exact Hs|]. exact Hc.
  - destruct (newUDPSession_ciphers _ _ _ Hx) as (Hrange & _ & Hrc & Hc).
    unfold adopted, keyed.
    destruct (udpCipher s) as [c|].
    + cbn. split; [reflexivity|]. split; [eauto|]. split; [lia|].
      split; [exact Hc|exact Hrc].
    + destruct Hc as (new & Hnew & Hc). rewrite Hnew.
      cbn [remoteSessionId remoteAddr sessionId cipher remoteCipher set_filter
           set_remoteAddr set_remoteCipher set_remoteSessionId].
      split; [reflexivity|]. split; [eauto|]. split; [lia|].
      exists new. split; [reflexivity|]. split; [exact Hc|reflexivity].
Qed.

Lemma table_keyed_NewPacket s now source buffer s' r :
  table_keyed s -> NewPacket s now source buffer = Done (s', r) -> table_keyed s'.
Proof.
  intros Hok HNP k x Hk.
  apply (keyed_config s s' k x (NewPacket_same_config _ _ _ _ _ _ HNP)).
  pose proof (NewPacket_cases _ _ _ _ _ _ HNP) as Hc.
  destruct (packetIds s buffer) as [[sid pid]|].
  2:{ destruct Hc as [-> _]. now apply Hok. }
  destruct Hc as (x0 & Hx0 & Hc). cbv zeta in Hc.
  pose proof (keyed_entryAfter s sid pid source x0 Hok Hx0) as Hentry.
  assert (sessions s' = sessions s \/
          sessions s' = <[sid := entryAfter s sid pid source x0]> (sessions s)) as [Hs|Hs].
  { unfold lookedUp in Hc. destruct r as [err|].
    - subst s'. destruct (sessions s !! sid); [right|left]; reflexivity.
    - destruct Hc as (d & p & ->). right. destruct (sessions s !! sid); reflexivity. }
  - rewrite Hs in Hk. now apply Hok.
  - rewrite Hs in Hk. destruct (decide (k = sid)) as [->|Hne].
    + rewrite lookup_insert_eq in Hk. injection Hk as <-. exact Hentry.
    + rewrite lookup_insert_ne in Hk by congruence. now apply Hok.
Qed.

Lemma table_keyed_receiveAll ps : forall s s',
  table_keyed s -> receiveAll s ps = Some s' -> table_keyed s'.
Proof.
  induction ps as [|p ps IH]; intros s s' Hok; cbn [receiveAll].
  - intros [= <-]. exact Hok.
  - destruct (receive s p) as [[s1 r]|] eqn:Hr; [|discriminate].
    apply IH. eapply table_keyed_NewPacket; [exact Hok|exact Hr].
Qed.

Lemma NewService_sessions method key rng timeout s0 :
  NewService method key rng timeout = (Some s0, None) -> sessions s0 = ∅.
Proof.
  unfold NewService. repeat case_match; intros; simplify_eq; reflexivity.
Qed.

(** X7.  Whatever datagrams a service made by [NewService] has received,
    every session of its table is stored under the session id of its
    client: the entry under [k] has [k] as its remote session id, a remote
    address, and a session id of its own below 2^64; in the split suite
    its cipher is keyed by its own id and its remote cipher by [k], both
    through the service's constructor and pre-shared key, and in the
    unified suite it has neither. *)
Theorem sessions_keyed_by_remote_id method key rng timeout s0 ps s k x :
  NewService method key rng timeout = (Some s0, None) ->
  receiveAll s0 ps = Some s ->
  sessions s !! k = Some x ->
  keyed s k x.
Proof.
  intros HNS Hps. revert k x.
  apply (table_keyed_receiveAll ps s0 s); [|exact Hps].
  intros k x. rewrite (NewService_sessions _ _ _ _ _ HNS), lookup_empty. discriminate.
Qed.

(** *** No nil cipher, no nonce of the wrong length *)









(** *** [NewConnection] *)

Lemma reader_ReadFull_app pre rest fin :
  reader_ReadFull (length pre) (mkReader (pre ++ rest) fin) = inr (pre, mkReader rest fin).
Proof.
  unfold reader_ReadFull. cbn [plain final].
  destruct (Nat.leb_spec (length pre) (length (pre ++ rest))) as [_|Hbad].
  - now rewrite take_app_length, drop_app_length.
  - rewrite length_app in Hbad. lia.
Qed.

(** What a client sends on a stream before its payload, decrypted: header
    type, timestamp, destination, padding length and padding. *)
Definition requestHeader (epoch : Z) (addr padding : bytes) : bytes :=
  [HeaderTypeClient] ++ put_uint 8 epoch ++ addr
    ++ put_uint 2 (Z.of_nat (length padding)) ++ padding.

(** X9.  [NewConnection] accepts a well-formed handshake: a salt of
    [KeySaltSize] bytes that the salt filter has not seen, followed by a
    stream that decrypts, under the key derived from the pre-shared key
    and the salt, to "client header type, timestamp, destination, padding
    length, padding" and a payload, with a timestamp at most thirty
    seconds from the server's clock on either side.  The salt is recorded,
    and the handler receives the destination the address codec read, the
    salt, and a reader that stands exactly at the payload. *)
Theorem NewConnection_accepts s now salt body new fin epoch addr padding payload destination :
  constructor s = Some new ->
  length salt = KeySaltSize ->
  salt ∉ replayFilter s ->
  shadowaead_NewReader (mkAEAD new (Blake3DeriveKey (psk s) salt (keyLength s))) body =
    (requestHeader epoch addr padding ++ payload, fin) ->
  ReadAddrPort (addr ++ put_uint 2 (Z.of_nat (length padding)) ++ padding ++ payload) =
    inr (destination, put_uint 2 (Z.of_nat (length padding)) ++ padding ++ payload) ->
  Z.of_nat (length padding) < 65536 ->
  30 <= now < 2 ^ 63 -> 0 <= epoch < 2 ^ 64 -> -30 <= now - epoch <= 30 ->
  NewConnection s now (salt ++ body) =
  Done (set_replayFilter (salt :: replayFilter s) s,
        Accepted destination salt (mkReader payload fin)).
Proof.
  intros Hnew Hsalt Hfresh Hreader Haddr Hpad Hnow Hepoch Hwin.
  unfold NewConnection.
  assert (io_ReadFull KeySaltSize (salt ++ body) = inr (salt, body)) as ->.
  { unfold io_ReadFull. rewrite <- Hsalt.
    destruct (Nat.eqb_spec (length salt) 0) as [Hz|Hz].
    - destruct salt; [reflexivity|discriminate].
    - destruct (salt ++ body) as [|h t] eqn:Hsb.
      + destruct salt; [contradiction|discriminate].
      + rewrite <- Hsb.
        destruct (Nat.ltb_spec (length (salt ++ body)) (length salt)) as [Hs|_].
        { rewrite length_app in Hs. lia. }
        now rewrite take_app_length, drop_app_length. }
  assert (replayFilter_Check salt s = (true, set_replayFilter (salt :: replayFilter s) s))
    as ->.
  { unfold replayFilter_Check.
    destruct (existsb _ (replayFilter s)) eqn:Hex; [|reflexivity].
    apply existsb_exists in Hex as (x & Hin & Hx).
    apply bool_decide_eq_true in Hx. subst x.
    exfalso. apply Hfresh. apply list_elem_of_In. exact Hin. }
  cbn [negb psk keyLength constructor set_replayFilter]. rewrite Hnew, Hreader.
  unfold requestHeader. rewrite <- !app_assoc.
  rewrite (reader_ReadFull_app [HeaderTypeClient]).
  rewrite bool_decide_true by reflexivity. cbn [negb].
  pose proof (reader_ReadFull_app (put_uint 8 epoch)) as R8.
  rewrite length_put_uint in R8. rewrite R8. clear R8.
  rewrite be_uint_put_uint. change (256 ^ Z.of_nat 8) with (2 ^ 64).
  rewrite Z.mod_small by exact Hepoch.
  rewrite (proj2 (badTimestampConn_spec now epoch Hnow Hepoch) Hwin).
  cbn [plain final]. rewrite Haddr.
  pose proof (reader_ReadFull_app (put_uint 2 (Z.of_nat (length padding)))) as R2.
  rewrite length_put_uint in R2. rewrite R2. clear R2.
  rewrite be_uint_put_uint. change (256 ^ Z.of_nat 2) with 65536.
  rewrite Z.mod_small by lia.
  destruct (Z.ltb_spec 0 (Z.of_nat (length padding))) as [Hp|Hp].
  - rewrite Nat2Z.id, reader_ReadFull_app. reflexivity.
  - destruct padding; [reflexivity|cbn in Hp; lia].
Qed.

(** X10.  With a constructor set, [NewConnection] returns on every
    input, accepted or rejected, and touches nothing of the datagram side:
    the session table, what was delivered, the position in the random
    source and the configuration are as before; of the salt filter it
    changes at most the one salt it read, put in front. *)
Theorem NewConnection_returns s now conn new :
  constructor s = Some new ->
  exists s' r,
    NewConnection s now conn = Done (s', r) /\
    same_config s s' /\ sessions s' = sessions s /\ delivered s' = delivered s /\
    rngPos s' = rngPos s /\
    (replayFilter s' = replayFilter s \/
     exists salt rest,
       io_ReadFull KeySaltSize conn = inr (salt, rest) /\
       replayFilter s' = salt :: replayFilter s).
Proof.
  intros Hnew. unfold NewConnection.
  destruct (io_ReadFull KeySaltSize conn) as [err|[salt rest]] eqn:Hsalt.
  { eexists _, _. split; [reflexivity|]. repeat split. now left. }
  unfold replayFilter_Check.
  destruct (existsb _ (replayFilter s)); cbn [negb].
  { eexists _, _. split; [reflexivity|]. repeat split. now left. }
  cbn [constructor psk keyLength set_replayFilter]. rewrite Hnew.
  assert (forall r : ConnResult,
            exists s' r',
              Done (set_replayFilter (salt :: replayFilter s) s, r) = Done (s', r') /\
              same_config s s' /\ sessions s' = sessions s /\ delivered s' = delivered s /\
              rngPos s' = rngPos s /\
              (replayFilter s' = replayFilter s \/
               exists salt0 rest0,
                 inr (salt, rest) = @inr error _ (salt0, rest0) /\
                 replayFilter s' = salt0 :: replayFilter s)) as Hdone.
  { intros r. eexists _, _. split; [reflexivity|]. repeat split. right. eauto. }
  destruct (shadowaead_NewReader _ rest) as [pt fin].
  repeat match goal with
         | |- exists s' r, Done _ = Done _ /\ _ => apply Hdone
         | |- context [match ?c with _ => _ end] => destruct c
         end.
Qed.

(** *** [NewPacket] on the first datagram of a session *)

(** What a client datagram carries after its ids, decrypted: header type,
    timestamp, padding length, padding, destination and payload. *)
Definition clientRequest (epoch : Z) (padding addr payload : bytes) : bytes :=
  [HeaderTypeClient] ++ put_uint 8 epoch ++ put_uint 2 (Z.of_nat (length padding))
    ++ padding ++ addr ++ payload.

Lemma readRequest_clientRequest now epoch padding addr payload tail destination :
  ReadAddrPort (addr ++ payload ++ tail) = inr (destination, payload ++ tail) ->
  Z.of_nat (length padding) < 65536 ->
  30 <= now < 2 ^ 63 -> 0 <= epoch < 2 ^ 64 -> 0 <= now - epoch <= 30 ->
  readRequest now (clientRequest epoch padding addr payload ++ tail) =
  inr (destination, payload ++ tail).
Proof.
  intros Haddr Hpad Hnow Hepoch Hwin.
  unfold clientRequest. rewrite <- !app_assoc.
  unfold readRequest. cbn [app ReadByte]. rewrite Byte.byte_dec_lb by reflexivity. cbn [negb].
  rewrite binary_Read_put_uint by lia. change (256 ^ Z.of_nat 8) with (2 ^ 64).
  rewrite Z.mod_small by exact Hepoch.
  rewrite (proj2 (badTimestampPacket_spec now epoch Hnow Hepoch) Hwin).
  rewrite binary_Read_put_uint by lia. change (256 ^ Z.of_nat 2) with 65536.
  rewrite Z.mod_small by lia. rewrite Nat2Z.id, drop_app_length. exact Haddr.
Qed.

Lemma newUDPSession_returns s :
  is_Some (udpCipher s) \/ is_Some (constructor s) ->
  exists x0, newUDPSession s = Done (x0, set_rngPos (rngPos s + 8)%nat s).
Proof.
  intros Hs. destruct (newUDPSession s) as [[x0 m]|] eqn:HN.
  - pose proof (newUDPSession_inv _ _ _ HN) as (-> & _). eauto.
  - exfalso. revert HN. unfold newUDPSession. cbv zeta.
    cbn [rng_read fst snd udpCipher constructor set_rngPos].
    destruct (udpCipher s); [discriminate|].
    destruct (constructor s); [discriminate|].
    destruct Hs as [[? Hs]|[? Hs]]; discriminate.
Qed.

(** X11.  The split suite delivers the first datagram of a session.  The
    datagram is a block that decrypts to "session id, packet id" followed
    by a text that the cipher keyed by the client's session id opens,
    under the last twelve bytes of the block, to "client header type,
    timestamp, padding length, padding, destination, payload"; the session
    is new, the packet id below 2^64-1 and the timestamp at most thirty
    seconds behind the server's clock.  Then [NewPacket] returns without
    error, creates the session under the client's id with the source as
    remote address and that cipher as remote cipher, and hands on one
    packet for the destination read.  The packet's bytes are the payload
    followed by what the datagram held beyond the opened text (the
    cipher's tag): the buffer is not cut back after [Open]. *)
Theorem NewPacket_delivers_first_datagram s now source b new header sid pid sealed
    epoch padding addr payload destination :
  udpCipher s = None -> udpBlockCipher s = Some b -> constructor s = Some new ->
  length header = 16%nat ->
  block_Decrypt b header = put_uint 8 sid ++ put_uint 8 pid ->
  0 <= sid < 2 ^ 64 -> 0 <= pid < MaxUint64 ->
  sessions s !! sid = None ->
  let c := mkAEAD new (Blake3DeriveKey (psk s) (put_uint 8 sid) (keyLength s)) in
  let pt := clientRequest epoch padding addr payload in
  let tail := drop (length pt) sealed in
  aead_NonceSize c = 12%nat ->
  aead_Open c (drop 4 (put_uint 8 sid) ++ put_uint 8 pid) sealed = Some pt ->
  ReadAddrPort (addr ++ payload ++ tail) = inr (destination, payload ++ tail) ->
  Z.of_nat (length padding) < 65536 ->
  30 <= now < 2 ^ 63 -> 0 <= epoch < 2 ^ 64 -> 0 <= now - epoch <= 30 ->
  exists s' x,
    NewPacket s now source (header ++ sealed) = Done (s', None) /\
    delivered s' = mkDelivery sid source destination (payload ++ tail) :: delivered s /\
    sessions s' !! sid = Some x /\
    remoteSessionId x = sid /\ remoteAddr x = Some source /\ remoteCipher x = Some c /\
    packetId x = MaxUint64.
Proof.
  intros Hu Hb Hnew Hlh Hdec Hsid Hpid Hnone c pt tail Hn Hopen Haddr Hpad Hnow Hepoch Hwin.
  subst c.
  destruct (newUDPSession_returns s) as [x0 HN]; [right; rewrite Hnew; eauto|].
  destruct (newUDPSession_inv _ _ _ HN) as (_ & Hf & Hpk & _).
  assert (NewPacket s now source (header ++ sealed) =
          Done (set_delivered
                  (mkDelivery sid source destination (payload ++ tail) :: delivered s)
                  (store sid (entryAfter s sid pid source x0)
                     (set_rngPos (rngPos s + 8)%nat s)), None)) as HNP.
  { unfold NewPacket, openHeader. rewrite Hu, Hb. change aes_BlockSize with 16%nat.
    destruct (Nat.ltb_spec (length (header ++ sealed)) 16) as [Hs|_].
    { rewrite length_app in Hs. lia. }
    rewrite take_app_length' by (symmetry; exact Hlh). rewrite Hdec.
    assert (inplace (put_uint 8 sid ++ put_uint 8 pid) (header ++ sealed) =
            put_uint 8 sid ++ put_uint 8 pid ++ sealed) as ->.
    { unfold inplace. rewrite <- app_assoc. do 2 f_equal.
      rewrite length_app, !length_put_uint. apply drop_app_length'. symmetry; exact Hlh. }
    rewrite binary_Read_put_uint by lia. rewrite binary_Read_put_uint by lia.
    change (256 ^ Z.of_nat 8) with (2 ^ 64).
    rewrite (Z.mod_small sid) by exact Hsid.
    rewrite (Z.mod_small pid) by (unfold MaxUint64 in Hpid; lia).
    unfold LoadOrStore. rewrite Hnone, HN.
    cbn [negb constructor set_sessions set_rngPos psk keyLength]. rewrite Hnew.
    assert (take 8 (take 16 (put_uint 8 sid ++ put_uint 8 pid ++ sealed)) = put_uint 8 sid)
      as ->.
    { rewrite take_take. cbn [Nat.min]. apply take_app_length'.
      symmetry; apply length_put_uint. }
    unfold process.
    cbn [filter set_remoteAddr set_remoteCipher set_remoteSessionId].
    rewrite Hf.
    pose proof (ValidateCounter_zero_accepts pid MaxUint64 Hpid) as Hacc.
    destruct (Replay.ValidateCounter Replay.zero pid MaxUint64) as [valid f] eqn:Hv.
    cbn [fst] in Hacc. subst valid. cbn [negb].
    match goal with |- context [remoteCipher ?x] =>
      let v := eval cbn [remoteCipher set_filter set_remoteAddr set_remoteCipher
                         set_remoteSessionId] in (remoteCipher x) in
      change (remoteCipher x) with v end.
    assert (drop 4 (take 16 (take 16 (put_uint 8 sid ++ put_uint 8 pid ++ sealed))) =
            drop 4 (put_uint 8 sid) ++ put_uint 8 pid) as ->.
    { rewrite take_take. cbn [Nat.min]. rewrite app_assoc.
      rewrite take_app_length' by (rewrite length_app, !length_put_uint; reflexivity).
      rewrite drop_app_le by (rewrite length_put_uint; lia). reflexivity. }
    unfold Open. rewrite length_app, length_drop, !length_put_uint, Hn.
    cbn [Nat.sub Nat.add Nat.eqb]. rewrite Hopen. fold pt.
    unfold inplace. fold tail. unfold pt at 1.
    rewrite (readRequest_clientRequest now epoch padding addr payload tail destination)
      by assumption.
    unfold entryAfter, adopted, store. rewrite Hnone, Hu, Hnew.
    cbn [filter set_remoteAddr set_remoteCipher set_remoteSessionId sessions set_sessions
         set_rngPos delivered].
    rewrite Hf, Hv. cbn [snd]. rewrite insert_insert_eq. reflexivity. }
  eexists _, _. split; [exact HNP|].
  split; [reflexivity|]. split; [cbn; apply lookup_insert_eq|].
  unfold entryAfter, adopted. rewrite Hnone, Hu, Hnew. cbn. repeat split. exact Hpk.
Qed.

(** X12.  The unified suite delivers the first datagram of a session.  The
    datagram is a nonce followed by a text that the service's cipher
    opens, under that nonce, to "session id, packet id, client header
    type, timestamp, padding length, padding, destination, payload"; the
    session is new, the packet id below 2^64-1 and the timestamp at most
    thirty seconds behind the server's clock.  Then [NewPacket] returns
    without error, creates the session under the client's id with the
    source as remote address and no cipher of its own, and hands on one
    packet for the destination read: the payload followed by what the
    datagram held beyond the opened text. *)
Theorem NewPacket_delivers_first_unified s now source c nonce sid pid sealed
    epoch padding addr payload destination :
  udpCipher s = Some c ->
  aead_NonceSize c = PacketNonceSize ->
  length nonce = PacketNonceSize ->
  0 <= sid < 2 ^ 64 -> 0 <= pid < MaxUint64 ->
  sessions s !! sid = None ->
  let pt := put_uint 8 sid ++ put_uint 8 pid ++ clientRequest epoch padding addr payload in
  let tail := drop (length pt) sealed in
  aead_Open c nonce sealed = Some pt ->
  ReadAddrPort (addr ++ payload ++ tail) = inr (destination, payload ++ tail) ->
  Z.of_nat (length padding) < 65536 ->
  30 <= now < 2 ^ 63 -> 0 <= epoch < 2 ^ 64 -> 0 <= now - epoch <= 30 ->
  exists s' x,
    NewPacket s now source (nonce ++ sealed) = Done (s', None) /\
    delivered s' = mkDelivery sid source destination (payload ++ tail) :: delivered s /\
    sessions s' !! sid = Some x /\
    remoteSessionId x = sid /\ remoteAddr x = Some source /\
    cipher x = None /\ remoteCipher x = None /\ packetId x = MaxUint64.
Proof.
  intros Hu Hn Hln Hsid Hpid Hnone pt tail Hopen Haddr Hpad Hnow Hepoch Hwin.
  destruct (newUDPSession_returns s) as [x0 HN]; [left; rewrite Hu; eauto|].
  destruct (newUDPSession_inv _ _ _ HN) as (_ & Hf & Hpk & _).
  destruct (newUDPSession_ciphers _ _ _ HN) as (_ & _ & Hrc & Hc).
  rewrite Hu in Hc.
  assert (NewPacket s now source (nonce ++ sealed) =
          Done (set_delivered
                  (mkDelivery sid source destination (payload ++ tail) :: delivered s)
                  (store sid (entryAfter s sid pid source x0)
                     (set_rngPos (rngPos s + 8)%nat s)), None)) as HNP.
  { unfold NewPacket, openHeader. rewrite Hu.
    destruct (Nat.ltb_spec (length (nonce ++ sealed)) PacketNonceSize) as [Hs|_].
    { rewrite length_app in Hs. lia. }
    rewrite <- Hln at 1 2. rewrite take_app_length, drop_app_length.
    unfold Open. rewrite Hn, Hln, Nat.eqb_refl, Hopen.
    rewrite <- Hln, drop_app_length.
    unfold inplace. fold tail. unfold pt at 1. rewrite <- !app_assoc.
    rewrite binary_Read_put_uint by lia. rewrite binary_Read_put_uint by lia.
    change (256 ^ Z.of_nat 8) with (2 ^ 64).
    rewrite (Z.mod_small sid) by exact Hsid.
    rewrite (Z.mod_small pid) by (unfold MaxUint64 in Hpid; lia).
    unfold LoadOrStore. rewrite Hnone, HN. cbn [negb]. unfold process.
    cbn [filter set_remoteAddr set_remoteSessionId]. rewrite Hf.
    pose proof (ValidateCounter_zero_accepts pid MaxUint64 Hpid) as Hacc.
    destruct (Replay.ValidateCounter Replay.zero pid MaxUint64) as [valid f] eqn:Hv.
    cbn [fst] in Hacc. subst valid. cbn [negb].
    rewrite (readRequest_clientRequest now epoch padding addr payload tail destination)
      by assumption.
    unfold entryAfter, adopted, store. rewrite Hnone, Hu.
    cbn [filter set_remoteAddr set_remoteCipher set_remoteSessionId sessions set_sessions
         set_rngPos delivered].
    rewrite Hf, Hv. cbn [snd]. rewrite insert_insert_eq. reflexivity. }
  eexists _, _. split; [exact HNP|].
  split; [reflexivity|]. split; [cbn; apply lookup_insert_eq|].
  unfold entryAfter, adopted. rewrite Hnone, Hu. cbn. repeat split; assumption.
Qed.

(** X16.  The split suite delivers a datagram of a session it holds.  The
    datagram is as for a first one, opened by the session's remote cipher,
    and the session's replay window accepts the packet id.  Then
    [NewPacket] returns without error and draws no random bytes; in the
    table only the entry of the session changes, to the new remote
    address and the window after the packet id; and one packet is handed
    on for the destination read: the payload followed by what the datagram
    held beyond the opened text. *)
Theorem NewPacket_delivers_known_session s now source b y c header sid pid sealed
    epoch padding addr payload destination :
  udpCipher s = None -> udpBlockCipher s = Some b ->
  length header = 16%nat ->
  block_Decrypt b header = put_uint 8 sid ++ put_uint 8 pid ->
  0 <= sid < 2 ^ 64 -> 0 <= pid < 2 ^ 64 ->
  sessions s !! sid = Some y ->
  remoteCipher y = Some c ->
  (Replay.ValidateCounter (filter y) pid MaxUint64).1 = true ->
  let pt := clientRequest epoch padding addr payload in
  let tail := drop (length pt) sealed in
  aead_NonceSize c = 12%nat ->
  aead_Open c (drop 4 (put_uint 8 sid) ++ put_uint 8 pid) sealed = Some pt ->
  ReadAddrPort (addr ++ payload ++ tail) = inr (destination, payload ++ tail) ->
  Z.of_nat (length padding) < 65536 ->
  30 <= now < 2 ^ 63 -> 0 <= epoch < 2 ^ 64 -> 0 <= now - epoch <= 30 ->
  NewPacket s now source (header ++ sealed) =
  Done (set_delivered
          (mkDelivery sid source destination (payload ++ tail) :: delivered s)
          (store sid
             (set_filter (Replay.ValidateCounter (filter y) pid MaxUint64).2
                (set_remoteAddr (Some source) y)) s),
        None).
Proof.
  intros Hu Hb Hlh Hdec Hsid Hpid Hy Hrc Hacc pt tail Hn Hopen Haddr Hpad Hnow Hepoch Hwin.
  unfold NewPacket, openHeader. rewrite Hu, Hb. change aes_BlockSize with 16%nat.
  destruct (Nat.ltb_spec (length (header ++ sealed)) 16) as [Hs|_].
  { rewrite length_app in Hs. lia. }
  rewrite take_app_length' by (symmetry; exact Hlh). rewrite Hdec.
  assert (inplace (put_uint 8 sid ++ put_uint 8 pid) (header ++ sealed) =
          put_uint 8 sid ++ put_uint 8 pid ++ sealed) as ->.
  { unfold inplace. rewrite <- app_assoc. do 2 f_equal.
    rewrite length_app, !length_put_uint. apply drop_app_length'. symmetry; exact Hlh. }
  rewrite binary_Read_put_uint by lia. rewrite binary_Read_put_uint by lia.
  change (256 ^ Z.of_nat 8) with (2 ^ 64).
  rewrite (Z.mod_small sid) by exact Hsid.
  rewrite (Z.mod_small pid) by exact Hpid.
  unfold LoadOrStore. rewrite Hy. cbn [negb]. unfold process.
  cbn [filter set_remoteAddr].
  destruct (Replay.ValidateCounter (filter y) pid MaxUint64) as [valid f] eqn:Hv.
  cbn [fst] in Hacc. subst valid. cbn [negb snd].
  change (remoteCipher (set_filter f (set_remoteAddr (Some source) y)))
    with (remoteCipher y).
  rewrite Hrc.
  assert (drop 4 (take 16 (take 16 (put_uint 8 sid ++ put_uint 8 pid ++ sealed))) =
          drop 4 (put_uint 8 sid) ++ put_uint 8 pid) as ->.
  { rewrite take_take. cbn [Nat.min]. rewrite app_assoc.
    rewrite take_app_length' by (rewrite length_app, !length_put_uint; reflexivity).
    rewrite drop_app_le by (rewrite length_put_uint; lia). reflexivity. }
  unfold Open. rewrite length_app, length_drop, !length_put_uint, Hn.
  cbn [Nat.sub Nat.add Nat.eqb]. rewrite Hopen. fold pt.
  unfold inplace. fold tail. unfold pt at 1.
  rewrite (readRequest_clientRequest now epoch padding addr payload tail destination)
    by assumption.
  reflexivity.
Qed.

End More.
End ShadowaeadMore.

(** ** The copy engine: what a run that returned has done *)
Module BufioMore.
Import Bufio BufioFacts.

Section RelayMore.
Context `{Network}.
Context {Item : Type}.
Variable read : World -> outcome (World * (error + Item)).
Variable write : Item -> World -> outcome (World * option error).
Variable len : Item -> Z.
Variable wrap : error -> error.



End RelayMore.

Section More.
Context `{Network}.














End More.
End BufioMore.

(** ** The further properties on the sample service *)
Module SampleMore.
Import Shadowaead ReplayFacts ShadowaeadFacts ShadowaeadMore Sample.
#[local] Existing Instance Sample.plain.

Lemma newUDPSession_fresh_witness :
  let rnd := (rng_read 8 aesService).1 in
  set_rngPos 8 aesService = (rng_read 8 aesService).2 /\
  sessionId freshSession = be_uint rnd /\ 0 <= sessionId freshSession < 2 ^ 64 /\
  packetId freshSession = MaxUint64 /\ remoteSessionId freshSession = 0 /\
  remoteAddr freshSession = None /\ remoteCipher freshSession = None /\
  filter freshSession = Replay.zero /\
  exists new, constructor aesService = Some new /\
    cipher freshSession =
    Some (mkAEAD new (Blake3DeriveKey (psk aesService) rnd (keyLength aesService))).
Proof.
  apply (newUDPSession_fresh aesService freshSession (set_rngPos 8 aesService)).
  vm_compute. reflexivity.
Defined.



(** What the sample call of [WritePacket] returns. *)
Definition written : Service * serverUDPSession * (error + bytes) :=
  match WritePacket aesService freshSession 1000 [x68; x69] 443 with
  | Done r => r
  | Panic _ => (aesService, freshSession, inl EOF)
  end.

Definition writtenPacket : bytes :=
  match written.2 with inr packet => packet | inl _ => [] end.

Lemma WritePacket_uses_packet_id_witness :
  written.1.2 = set_packetId (uint64 (packetId freshSession + 1)) freshSession /\
  written.1.1 = match udpCipher aesService with
                | Some _ => set_rngPos (rngPos aesService + PacketNonceSize)%nat aesService
                | None => aesService
                end.
Proof.
  apply (WritePacket_uses_packet_id aesService freshSession 1000 [x68; x69] 443
           written.1.1 written.1.2 written.2).
  vm_compute. reflexivity.
Defined.

Lemma WritePacket_ids_read_back_witness :
  packetIds aesService writtenPacket =
  Some (sessionId freshSession, uint64 (packetId freshSession + 1)).
Proof.
  apply (WritePacket_ids_read_back aesService freshSession 1000 [x68; x69] 443
           (mkBlock newAES key) writtenPacket written.1.1 written.1.2).
  - vm_compute. reflexivity.
  - vm_compute. reflexivity.
  - split; [apply Z.leb_le|apply Z.ltb_lt]; vm_compute; reflexivity.
  - intros block Hl. split; [exact Hl|reflexivity].
  - vm_compute. reflexivity.
Defined.

Lemma NewPacket_delivers_once_witness :
  same_config aesService (after aesService first) /\
  replayFilter (after aesService first) = replayFilter aesService /\
  rngPos (after aesService first) =
    match packetIds aesService (dg_data first) with
    | Some (sid, _) =>
      match sessions aesService !! sid with
      | Some _ => rngPos aesService
      | None => (rngPos aesService + 8)%nat
      end
    | None => rngPos aesService
    end /\
  exists sid pid destination payload x,
    packetIds aesService (dg_data first) = Some (sid, pid) /\
    delivered (after aesService first) =
      mkDelivery sid 1111 destination payload :: delivered aesService /\
    sessions (after aesService first) !! sid = Some x /\ remoteAddr x = Some 1111.
Proof.
  apply (NewPacket_delivers_once aesService 1000 1111 (dg_data first)
           (after aesService first) None).
  vm_compute. reflexivity.
Defined.

(** A datagram with the last packet id, and what [receive] says of a
    datagram. *)
Definition lastId : Datagram :=
  mkDatagram 1000 1111 (splitDatagram 5 MaxUint64 1000 [x68; x69]).

Definition verdict (s : Service) (p : Datagram) : option error :=
  match receive s p with Done (_, r) => r | Panic _ => None end.

Lemma NewPacket_refuses_last_packet_id_witness :
  verdict aesService lastId = Some ErrPacketIdNotUnique.
Proof.
  apply (NewPacket_refuses_last_packet_id aesService 1000 1111 (dg_data lastId)
           (after aesService lastId) (verdict aesService lastId) 5);
    vm_compute; reflexivity.
Defined.

(** The session the table holds after the datagram [first]. *)
Definition held : serverUDPSession :=
  default freshSession (sessions (after aesService first) !! 5).

Lemma sessions_keyed_by_remote_id_witness : keyed (after aesService first) 5 held.
Proof.
  apply (sessions_keyed_by_remote_id "2022-blake3-aes-128-gcm" key rng 300 aesService
           [first] (after aesService first) 5 held);
    vm_compute; reflexivity.
Defined.


(** A handshake with three bytes of padding and a payload. *)
Definition salt : bytes := replicate 32 x11.
Definition hello : bytes :=
  requestHeader 1001 (put_uint 2 443) [x00; x00; x00] ++ [x68; x69].

Lemma NewConnection_accepts_witness :
  NewConnection aesService 1000 (salt ++ hello) =
  Done (set_replayFilter (salt :: replayFilter aesService) aesService,
        Accepted 443 salt (mkReader [x68; x69] EOF)).
Proof.
  apply (NewConnection_accepts aesService 1000 salt hello newAESGCM EOF 1001
           (put_uint 2 443) [x00; x00; x00] [x68; x69] 443).
  - vm_compute. reflexivity.
  - reflexivity.
  - change (replayFilter aesService) with (@nil bytes). apply not_elem_of_nil.
  - reflexivity.
  - vm_compute. reflexivity.
  - vm_compute. reflexivity.
  - lia.
  - lia.
  - lia.
Defined.

Lemma NewConnection_returns_witness :
  exists s' r,
    NewConnection aesService 1000 (handshake 1001) = Done (s', r) /\
    same_config aesService s' /\ sessions s' = sessions aesService /\
    delivered s' = delivered aesService /\ rngPos s' = rngPos aesService /\
    (replayFilter s' = replayFilter aesService \/
     exists salt rest,
       io_ReadFull KeySaltSize (handshake 1001) = inr (salt, rest) /\
       replayFilter s' = salt :: replayFilter aesService).
Proof.
  apply (NewConnection_returns aesService 1000 (handshake 1001) newAESGCM).
  vm_compute. reflexivity.
Defined.

(** The first datagram of session 5 in both suites, with two bytes of
    padding. *)
Definition asked : bytes := clientRequest 1000 [x00; x00] (put_uint 2 443) [x68; x69].
Definition tag : bytes := replicate 16 xff.
Definition ids : bytes := put_uint 8 5 ++ put_uint 8 1.

Lemma NewPacket_delivers_first_datagram_witness :
  exists s' x,
    NewPacket aesService 1000 1111 (ids ++ (asked ++ tag)) = Done (s', None) /\
    delivered s' =
      mkDelivery 5 1111 443 ([x68; x69] ++ drop (length asked) (asked ++ tag))
        :: delivered aesService /\
    sessions s' !! 5 = Some x /\
    remoteSessionId x = 5 /\ remoteAddr x = Some 1111 /\
    remoteCipher x =
      Some (mkAEAD newAESGCM
              (Blake3DeriveKey (psk aesService) (put_uint 8 5) (keyLength aesService))) /\
    packetId x = MaxUint64.
Proof.
  apply (NewPacket_delivers_first_datagram aesService 1000 1111 (mkBlock newAES key)
           newAESGCM ids 5 1 (asked ++ tag) 1000 [x00; x00] (put_uint 2 443) [x68; x69] 443);
    first [vm_compute; reflexivity | unfold MaxUint64; lia].
Defined.

Definition nonce : bytes := replicate 24 x09.

Lemma NewPacket_delivers_first_unified_witness :
  exists s' x,
    NewPacket chachaService 1000 1111 (nonce ++ ((ids ++ asked) ++ tag)) = Done (s', None) /\
    delivered s' =
      mkDelivery 5 1111 443
        ([x68; x69]
         ++ drop (length (put_uint 8 5 ++ put_uint 8 1
                          ++ clientRequest 1000 [x00; x00] (put_uint 2 443) [x68; x69]))
              ((ids ++ asked) ++ tag))
        :: delivered chachaService /\
    sessions s' !! 5 = Some x /\
    remoteSessionId x = 5 /\ remoteAddr x = Some 1111 /\
    cipher x = None /\ remoteCipher x = None /\ packetId x = MaxUint64.
Proof.
  apply (NewPacket_delivers_first_unified chachaService 1000 1111
           (mkAEAD newXChacha20Poly1305 key) nonce 5 1 ((ids ++ asked) ++ tag) 1000
           [x00; x00] (put_uint 2 443) [x68; x69] 443);
    first [vm_compute; reflexivity | unfold MaxUint64; lia].
Defined.

(** A second datagram of session 5, with packet id 2, and the cipher the
    session opens it with. *)
Definition heldCipher : AEAD := default (mkAEAD newAESGCM []) (remoteCipher held).
Definition ids2 : bytes := put_uint 8 5 ++ put_uint 8 2.

Lemma NewPacket_delivers_known_session_witness :
  NewPacket (after aesService first) 1001 2222 (ids2 ++ (asked ++ tag)) =
  Done (set_delivered
          (mkDelivery 5 2222 443 ([x68; x69] ++ drop (length asked) (asked ++ tag))
             :: delivered (after aesService first))
          (store 5
             (set_filter (Replay.ValidateCounter (filter held) 2 MaxUint64).2
                (set_remoteAddr (Some 2222) held)) (after aesService first)),
        None).
Proof.
  apply (NewPacket_delivers_known_session (after aesService first) 1001 2222
           (mkBlock newAES key) held heldCipher ids2 5 2 (asked ++ tag) 1000 [x00; x00]
           (put_uint 2 443) [x68; x69] 443);
    first [vm_compute; reflexivity | lia].
Defined.

End SampleMore.

(** ** The further properties on the scripted endpoints *)
Module SampleCopyMore.
Import Bufio BufioFacts BufioMore SampleCopy.
#[local] Existing Instance SampleCopy.scripted.
#[local] Existing Instance SampleCopy.wire.





End SampleCopyMore.

(** ** The response path of a stream ([serverConn], lines 144-200) *)
Module Stream.
Import Shadowaead.

(** What the response path takes from [shadowaead.Writer], which the
    sources under study do not define.  [Wire] is what has been sent on
    the connection. *)
Class Writers `{Collaborators} : Type := {
  Wire : Type;
  Writer : Type;
  BufferedWriter : Type;
  (* shadowaead.NewWriter(conn, aead, MaxPacketSize) *)
  shadowaead_NewWriter : AEAD -> Writer;
  (* writer.BufferedWriter(header.Len()), once header.Write(salt) has put
     the salt into writer.Buffer() *)
  writer_BufferedWriter : Writer -> bytes -> BufferedWriter;
  bufferedWriter_Write : BufferedWriter -> bytes -> Wire -> Wire * BufferedWriter * option error;
  (* bufferedWriter.Flush(): the writer as the flush leaves it *)
  bufferedWriter_Flush : BufferedWriter -> Wire -> Wire * Writer * option error;
  writer_Write : Writer -> bytes -> Wire -> Wire * Writer * (Z * option error)
}.

Section Model.
Context `{Writers}.

(** [serverConn], lines 144-151, without the embedded [*Service], which
    is passed along, and the reader; a nil [requestSalt] is the empty
    slice. *)
Record serverConn : Type := mkConn {
  requestSalt : bytes;
  writer : option Writer
}.

(** [common.Must] and [common.Must1] on a write to the buffered writer. *)
Definition Must_Write (bufferedWriter : BufferedWriter) (p : bytes) (wire : Wire)
  : outcome (Wire * BufferedWriter) :=
  match bufferedWriter_Write bufferedWriter p wire with
  | (wire, bufferedWriter, None) => Done (wire, bufferedWriter)
  | (_, _, Some _) => Panic "Must"
  end.

(** [serverConn.writeResponse], lines 153-187; [now] is
    [time.Now().Unix()]. *)
Definition writeResponse (s : Service) (c : serverConn) (now : Z) (payload : bytes)
    (wire : Wire) : outcome (Service * serverConn * Wire * (Z * option error)) :=
  let '(salt, s) := rng_read KeySaltSize s in
  let key := Blake3DeriveKey (psk s) salt (keyLength s) in
  match constructor s with
  | None => Panic "nil constructor"
  | Some new =>
    let writer0 := shadowaead_NewWriter (mkAEAD new key) in
    let bufferedWriter := writer_BufferedWriter writer0 salt in
    match Must_Write bufferedWriter [HeaderTypeServer] wire with
    | Panic msg => Panic msg
    | Done (wire, bufferedWriter) =>
      match Must_Write bufferedWriter (put_uint 8 (uint64 now)) wire with
      | Panic msg => Panic msg
      | Done (wire, bufferedWriter) =>
        match Must_Write bufferedWriter (requestSalt c) wire with
        | Panic msg => Panic msg
        | Done (wire, bufferedWriter) =>
          let c := mkConn [] (writer c) in
          let written :=
            if (0 <? length payload)%nat then bufferedWriter_Write bufferedWriter payload wire
            else (wire, bufferedWriter, None) in
          match written with
          | (wire, _, Some err) => Done (s, c, wire, (0, Some err))
          | (wire, bufferedWriter, None) =>
            match bufferedWriter_Flush bufferedWriter wire with
            | (wire, _, Some err) => Done (s, c, wire, (0, Some err))
            | (wire, writer1, None) =>
              Done (s, mkConn (requestSalt c) (Some writer1), wire,
                    (Z.of_nat (length payload), None))
            end
          end
        end
      end
    end
  end.

(** [serverConn.Write], lines 189-200, for calls that come one after the
    other: the lock then changes nothing, and the second test of
    [c.writer] finds what the first found. *)
Definition serverConn_Write (s : Service) (c : serverConn) (now : Z) (p : bytes)
    (wire : Wire) : outcome (Service * serverConn * Wire * (Z * option error)) :=
  match writer c with
  | Some w =>
    let '(wire, w, r) := writer_Write w p wire in
    Done (s, mkConn (requestSalt c) (Some w), wire, r)
  | None => writeResponse s c now p wire
  end.

End Model.
End Stream.

(** ** The response path: properties *)
Module StreamMore.
Import Shadowaead ShadowaeadFacts Stream.

Section More.
Context `{Writers}.

(** Writing the chunks one after the other, up to the first error. *)
Fixpoint feed (bufferedWriter : BufferedWriter) (chunks : list bytes) (wire : Wire)
  : Wire * BufferedWriter * option error :=
  match chunks with
  | [] => (wire, bufferedWriter, None)
  | chunk :: chunks =>
    match bufferedWriter_Write bufferedWriter chunk wire with
    | (wire, bufferedWriter, None) => feed bufferedWriter chunks wire
    | failed => failed
    end
  end.

(** What the response consists of: server header type, timestamp, the
    salt of the request, and the first payload when there is one. *)
Definition response (now : Z) (salt payload : bytes) : list bytes :=
  [[HeaderTypeServer]; put_uint 8 (uint64 now); salt]
    ++ match payload with [] => [] | _ => [payload] end.

(** X17.  The first [Write] of a connection sends the response.  It draws
    a salt of [KeySaltSize] bytes from the random source, makes a writer
    for the key derived from the pre-shared key and that salt, and, over
    the salt as header, writes the server header type, the timestamp, the
    salt of the request and the payload (when it is not empty), then
    flushes.  When these writes and the flush succeed it returns the
    payload's length, keeps the flushed writer and forgets the request
    salt; a [Write] after that goes straight to the writer and leaves the
    service and the connection's salt alone. *)
Theorem Write_sends_response_once s c now payload wire new bw1 wire1 writer1 wire2 :
  writer c = None ->
  constructor s = Some new ->
  let salt := (rng_read KeySaltSize s).1 in
  let writer0 := shadowaead_NewWriter (mkAEAD new (Blake3DeriveKey (psk s) salt (keyLength s))) in
  feed (writer_BufferedWriter writer0 salt) (response now (requestSalt c) payload) wire =
    (wire1, bw1, None) ->
  bufferedWriter_Flush bw1 wire1 = (wire2, writer1, None) ->
  let s' := (rng_read KeySaltSize s).2 in
  let c' := mkConn [] (Some writer1) in
  serverConn_Write s c now payload wire =
    Done (s', c', wire2, (Z.of_nat (length payload), None)) /\
  forall now' p wire',
    serverConn_Write s' c' now' p wire' =
    Done (s', mkConn [] (Some (writer_Write writer1 p wire').1.2),
          (writer_Write writer1 p wire').1.1, (writer_Write writer1 p wire').2).
Proof.
  intros Hw Hnew salt writer0 Hfeed Hflush s' c'. split.
  - unfold serverConn_Write. rewrite Hw. unfold writeResponse.
    unfold rng_read in *. cbn [fst snd] in *. subst salt s'.
    cbn [psk keyLength constructor set_rngPos]. rewrite Hnew. fold writer0.
    unfold response, Must_Write in *. cbn [feed app] in Hfeed.
    destruct (bufferedWriter_Write _ [HeaderTypeServer] wire) as [[wa ba] [e|]];
      [discriminate|].
    destruct (bufferedWriter_Write ba _ wa) as [[wb bb] [e|]]; [discriminate|].
    destruct (bufferedWriter_Write bb (requestSalt c) wb) as [[wc bc] [e|]]; [discriminate|].
    cbn [requestSalt].
    destruct payload as [|b0 payload].
    + cbn [feed length Nat.ltb Nat.leb] in *. injection Hfeed as -> ->.
      rewrite Hflush. reflexivity.
    + cbn [feed] in Hfeed. change (0 <? length (b0 :: payload))%nat with true. cbv iota.
      destruct (bufferedWriter_Write bc (b0 :: payload) wc) as [[wd bd] [e|]];
        [discriminate|].
      injection Hfeed as -> ->. rewrite Hflush. reflexivity.
  - intros now' p wire'. subst c'. unfold serverConn_Write. cbn [writer requestSalt].
    destruct (writer_Write writer1 p wire') as [[w2 wr2] r]. reflexivity.
Qed.

(** X18.  A first [Write] that returns an error - the write of the
    payload or the flush failed - returns 0 with it and leaves the
    connection without a writer, so that the next [Write] sends a
    response again; but the request salt is already forgotten (it is
    cleared before the payload is written), so that response echoes an
    empty salt.  The random bytes of the salt drawn stay used. *)
Theorem Write_failure_forgets_request_salt s c now payload wire s' c' wire' n err :
  writer c = None ->
  serverConn_Write s c now payload wire = Done (s', c', wire', (n, Some err)) ->
  n = 0 /\ writer c' = None /\ requestSalt c' = [] /\ s' = (rng_read KeySaltSize s).2 /\
  forall now2 p2 wire2,
    serverConn_Write s' c' now2 p2 wire2 = writeResponse s' (mkConn [] None) now2 p2 wire2.
Proof.
  intros Hw. unfold serverConn_Write at 1. rewrite Hw. unfold writeResponse.
  unfold rng_read. cbn [fst snd psk keyLength constructor set_rngPos].
  destruct (constructor s) as [new|]; [|discriminate].
  unfold Must_Write.
  destruct (bufferedWriter_Write _ [HeaderTypeServer] wire) as [[wa ba] [e|]];
    [discriminate|].
  destruct (bufferedWriter_Write ba _ wa) as [[wb bb] [e|]]; [discriminate|].
  destruct (bufferedWriter_Write bb (requestSalt c) wb) as [[wc bc] [e|]]; [discriminate|].
  rewrite Hw.
  assert (forall r : Service * serverConn * Wire * (Z * option error),
            Done (set_rngPos (rngPos s + KeySaltSize)%nat s, mkConn [] None, r.1.2,
                  (0, Some err)) = Done (s', c', wire', (n, Some err)) ->
            n = 0 /\ writer c' = None /\ requestSalt c' = [] /\
            s' = set_rngPos (rngPos s + KeySaltSize)%nat s /\
            forall now2 p2 wire2,
              serverConn_Write s' c' now2 p2 wire2 =
              writeResponse s' (mkConn [] None) now2 p2 wire2) as Hfail.
  { intros r [= <- <- _ <-]. repeat split. }
  destruct (if (0 <? length payload)%nat then _ else _) as [[wd bd] [e|]].
  - intros Hd. assert (e = err) as -> by congruence.
    apply (Hfail (s, c, wd, (0, None))). cbn [fst snd]. congruence.
  - destruct (bufferedWriter_Flush bd wd) as [[we w1] [e|]]; [|discriminate].
    intros Hd. assert (e = err) as -> by congruence.
    apply (Hfail (s, c, we, (0, None))). cbn [fst snd]. congruence.
Qed.

End More.
End StreamMore.

(** ** The response path on a sample writer *)
Module SampleStream.
Import Shadowaead ShadowaeadFacts Stream StreamMore Sample.
#[local] Existing Instance Sample.plain.

(** A writer that sends, at each flush, what was written since the last
    one as one frame; its buffered writer refuses the one-byte chunk
    [xee]. *)
#[local] Instance framed : Writers := {|
  Wire := list bytes;
  Writer := AEAD;
  BufferedWriter := AEAD * bytes;
  shadowaead_NewWriter := fun aead => aead;
  writer_BufferedWriter := fun w header => (w, header);
  bufferedWriter_Write := fun bw p wire =>
    if bool_decide (p = [xee]) then (wire, bw, Some (ErrCollab 7))
    else (wire, (bw.1, bw.2 ++ p), None);
  bufferedWriter_Flush := fun bw wire => (wire ++ [bw.2], bw.1, None);
  writer_Write := fun w p wire => (wire ++ [p], w, (Z.of_nat (length p), None))
|}.

(** The connection of an accepted handshake with salt [x11]..., and its
    first write. *)
Definition accepted : serverConn := mkConn (replicate 32 x11) None.

Definition fed : Wire * BufferedWriter * option error :=
  feed
    (writer_BufferedWriter
       (shadowaead_NewWriter
          (mkAEAD newAESGCM
             (Blake3DeriveKey (psk aesService) (rng_read KeySaltSize aesService).1
                (keyLength aesService))))
       (rng_read KeySaltSize aesService).1)
    (response 1000 (requestSalt accepted) [x68; x69]) [].

Definition flushed : Wire * Writer * option error := bufferedWriter_Flush fed.1.2 fed.1.1.

Lemma Write_sends_response_once_witness :
  serverConn_Write aesService accepted 1000 [x68; x69] [] =
  Done ((rng_read KeySaltSize aesService).2, mkConn [] (Some flushed.1.2), flushed.1.1,
        (Z.of_nat (length [x68; x69]), None)).
Proof.
  refine (proj1 (Write_sends_response_once aesService accepted 1000 [x68; x69] []
                   newAESGCM fed.1.2 fed.1.1 flushed.1.2 flushed.1.1 _ _ _ _));
    vm_compute; reflexivity.
Defined.

(** The frame that was sent: the salt drawn, the server header type, the
    timestamp, the salt of the request and the payload. *)
Example response_frame :
  flushed.1.1 =
  [replicate 32 x07 ++ [x01] ++ put_uint 8 1000 ++ replicate 32 x11 ++ [x68; x69]].
Proof. vm_compute. reflexivity. Qed.

(** A first write that fails. *)
Definition failed : Service * serverConn * Wire * (Z * option error) :=
  match serverConn_Write aesService accepted 1000 [xee] [] with
  | Done r => r
  | Panic _ => (aesService, accepted, [], (0, None))
  end.

Lemma Write_failure_forgets_request_salt_witness :
  failed.2.1 = 0 /\ writer failed.1.1.2 = None /\ requestSalt failed.1.1.2 = [] /\
  failed.1.1.1 = (rng_read KeySaltSize aesService).2 /\
  forall now2 p2 wire2,
    serverConn_Write failed.1.1.1 failed.1.1.2 now2 p2 wire2 =
    writeResponse failed.1.1.1 (mkConn [] None) now2 p2 wire2.
Proof.
  apply (Write_failure_forgets_request_salt aesService accepted 1000 [xee] []
           failed.1.1.1 failed.1.1.2 failed.1.2 failed.2.1 (ErrCollab 7));
    vm_compute; reflexivity.
Defined.

(** The write after the failed one echoes no salt: its frame holds the
    new salt, the header type and the timestamp, and then the payload. *)
Example retry_frame :
  serverConn_Write failed.1.1.1 failed.1.1.2 1001 [x68; x69] [] =
  Done ((rng_read KeySaltSize failed.1.1.1).2,
        mkConn [] (Some (mkAEAD newAESGCM (replicate 16 x07))),
        [replicate 32 x07 ++ [x01] ++ put_uint 8 1001 ++ [x68; x69]],
        (2, None)).
Proof. vm_compute. reflexivity. Qed.

End SampleStream.
